(** * PayStream frontend: the diagram safety layer and the analysis session

  A shallow embedding of two pieces of the React application:

  - [src/components/MermaidDiagram.tsx]: [sanitizeChart] and the
    [MermaidDiagram] component (guard, engine call, fallback view);
  - [src/pages/Analysis.tsx]: [startAnalysis], the [EventSource]
    message handler and the state it reduces into.

  JavaScript strings are sequences of UTF-16 code units, React state is
  a record that the handlers rewrite, the [EventSource] is a flag in
  that record together with a log of the requests that were opened, and
  a promise is a value that is either fulfilled or rejected. *)

From Stdlib Require Import String Ascii List NArith Bool Arith Lia QArith.
From Stdlib Require Import Sorted.
Import ListNotations.

Local Close Scope Q_scope.
Local Open Scope list_scope.

(* ================================================================== *)
(** * Part I: definitions                                              *)
(* ================================================================== *)

(** ** JavaScript strings and the built-ins the two files call *)

Module JS.

(** A string is a list of UTF-16 code units. *)
Definition codeunit := N.
Definition jsstring := list codeunit.

(** A string literal of the source (ASCII text). *)
Definition lit (s : string) : jsstring :=
  map N_of_ascii (list_ascii_of_string s).
Arguments lit s%_string.

(** The escape [\n]. *)
Definition nl : jsstring := [10%N].

Definition eqb (a b : jsstring) : bool :=
  if list_eq_dec N.eq_dec a b then true else false.

(** [!s] on a string: only the empty string is falsy. *)
Definition falsy (s : jsstring) : bool :=
  match s with [] => true | _ :: _ => false end.

(** The code units [String.prototype.trim] removes: ECMAScript WhiteSpace
    (TAB, VT, FF, SP, NBSP, ZWNBSP and the Unicode space separators) and
    LineTerminator (LF, CR, LS, PS). *)
Definition isWhiteSpace (c : codeunit) : bool :=
  ((9 <=? c) && (c <=? 13) || (c =? 32) || (c =? 160) || (c =? 5760)
   || (8192 <=? c) && (c <=? 8202) || (c =? 8232) || (c =? 8233)
   || (c =? 8239) || (c =? 8287) || (c =? 12288) || (c =? 65279))%N.

Fixpoint trimStart (s : jsstring) : jsstring :=
  match s with
  | [] => []
  | c :: s' => if isWhiteSpace c then trimStart s' else s
  end.

Fixpoint trimEnd (s : jsstring) : jsstring :=
  match s with
  | [] => []
  | c :: s' =>
      match trimEnd s' with
      | [] => if isWhiteSpace c then [] else [c]
      | t => c :: t
      end
  end.

Definition trim (s : jsstring) : jsstring := trimEnd (trimStart s).

(** The first code unit is not white space (or there is none). *)
Definition headSolid (s : jsstring) : bool :=
  match s with
  | [] => true
  | c :: _ => negb (isWhiteSpace c)
  end.

(** [s.startsWith(p)]. *)
Fixpoint startsWith (p s : jsstring) : bool :=
  match p, s with
  | [], _ => true
  | _ :: _, [] => false
  | a :: p', b :: s' => (a =? b)%N && startsWith p' s'
  end.

(** [s.includes(p)]. *)
Fixpoint includes (p s : jsstring) : bool :=
  startsWith p s ||
  match s with
  | [] => false
  | _ :: s' => includes p s'
  end.

(** [s.endsWith(p)]. *)
Definition endsWith (p s : jsstring) : bool :=
  (length p <=? length s)%nat && eqb (skipn (length s - length p) s) p.

(** *** Regular expressions

    The fragment the source uses: characters, character classes,
    sequence, greedy [*] and [?], and the assertions [^] and [$]
    (without the [m] flag: start and end of the whole input).  The
    matcher is the backtracking one of the language definition, in
    continuation-passing style; a [*] iteration that consumes nothing
    is rejected, as there. *)
Inductive regex : Type :=
| Chr (c : codeunit)
| Cls (p : codeunit -> bool)
| Cat (r1 r2 : regex)
| Star (r : regex)
| Opt (r : regex)
| Bol
| Eol.

(** A match state is the index reached and the input that is left. *)
Definition Cont := nat -> jsstring -> option (nat * jsstring).

(** The iterations of a greedy [*]: [body] matches one iteration,
    [n] bounds their number (each one consumes input). *)
Definition starLoop (body : nat -> jsstring -> Cont -> option (nat * jsstring))
  (k : Cont) : nat -> nat -> jsstring -> option (nat * jsstring) :=
  fix loop (n : nat) (pos : nat) (s : jsstring) {struct n} :=
    match n with
    | O => k pos s
    | S n' =>
        match body pos s
                (fun pos' s' =>
                   if Nat.eqb pos' pos then None else loop n' pos' s')
        with
        | Some e => Some e
        | None => k pos s
        end
    end.

Fixpoint rmatch (r : regex) (pos : nat) (s : jsstring) (k : Cont)
  {struct r} : option (nat * jsstring) :=
  match r with
  | Chr c =>
      match s with
      | d :: s' => if (c =? d)%N then k (S pos) s' else None
      | [] => None
      end
  | Cls p =>
      match s with
      | d :: s' => if p d then k (S pos) s' else None
      | [] => None
      end
  | Cat r1 r2 => rmatch r1 pos s (fun pos' s' => rmatch r2 pos' s' k)
  | Opt r1 =>
      match rmatch r1 pos s k with
      | Some e => Some e
      | None => k pos s
      end
  | Star r1 => starLoop (rmatch r1) k (S (length s)) pos s
  | Bol => if Nat.eqb pos 0 then k pos s else None
  | Eol => match s with [] => k pos s | _ :: _ => None end
  end.

Definition accept : Cont := fun e rest => Some (e, rest).

(** [s.replace(re, repl)] for a regular expression without the [g]
    flag and a replacement text without [$] patterns: the leftmost
    match is replaced, and a string without a match is returned as it
    is. *)
Fixpoint replaceFrom (re : regex) (repl : jsstring) (pos : nat)
  (s : jsstring) : jsstring :=
  match rmatch re pos s accept with
  | Some (_, rest) => repl ++ rest
  | None =>
      match s with
      | [] => []
      | c :: s' => c :: replaceFrom re repl (S pos) s'
      end
  end.

Definition replace (re : regex) (repl : jsstring) (s : jsstring) : jsstring :=
  replaceFrom re repl 0 s.

(** *** [encodeURIComponent]

    Code units are decoded to code points (a lone surrogate is a
    [URIError], here [None]), unreserved characters are copied, and
    every other code point is written as the percent-escaped bytes of
    its UTF-8 encoding. *)
Definition isUnreserved (c : codeunit) : bool :=
  ((65 <=? c) && (c <=? 90) || (97 <=? c) && (c <=? 122)
   || (48 <=? c) && (c <=? 57)
   || (c =? 45) || (c =? 95) || (c =? 46) || (c =? 33) || (c =? 126)
   || (c =? 42) || (c =? 39) || (c =? 40) || (c =? 41))%N.

Definition hexDigit (n : N) : codeunit :=
  (if n <? 10 then 48 + n else 55 + n)%N.

Definition percent (b : N) : jsstring :=
  [37%N; hexDigit (b / 16); hexDigit (b mod 16)].

Definition utf8 (cp : N) : list N :=
  (if cp <? 128 then [cp]
   else if cp <? 2048 then [192 + cp / 64; 128 + cp mod 64]
   else if cp <? 65536 then
     [224 + cp / 4096; 128 + (cp / 64) mod 64; 128 + cp mod 64]
   else
     [240 + cp / 262144; 128 + (cp / 4096) mod 64;
      128 + (cp / 64) mod 64; 128 + cp mod 64])%N.

Definition isHighSurrogate (c : codeunit) : bool :=
  ((55296 <=? c) && (c <=? 56319))%N.
Definition isLowSurrogate (c : codeunit) : bool :=
  ((56320 <=? c) && (c <=? 57343))%N.

Fixpoint encodeURIComponent (s : jsstring) : option jsstring :=
  match s with
  | [] => Some []
  | c :: s' =>
      if isUnreserved c then option_map (cons c) (encodeURIComponent s')
      else if isLowSurrogate c then None
      else if isHighSurrogate c then
        match s' with
        | d :: s'' =>
            if isLowSurrogate d then
              let cp := ((c - 55296) * 1024 + (d - 56320) + 65536)%N in
              option_map (app (concat (map percent (utf8 cp))))
                         (encodeURIComponent s'')
            else None
        | [] => None
        end
      else if (65536 <=? c)%N then None
      else option_map (app (concat (map percent (utf8 c))))
                      (encodeURIComponent s')
  end.


End JS.

Import JS.

(** ** [src/components/MermaidDiagram.tsx] *)

Module Mermaid.

(** [/^```[a-z]*\n?/i].  Under the [i] flag (and no [u] flag) a code
    unit is compared after upper-casing, except that a code unit above
    127 is never identified with one below 128; the class [[a-z]]
    therefore matches the ASCII letters of both cases and nothing
    else. *)
Definition isAsciiLetter (c : codeunit) : bool :=
  ((65 <=? c) && (c <=? 90) || (97 <=? c) && (c <=? 122))%N.

Definition backtick : codeunit := 96%N.

Definition fenceOpenRe : regex :=
  Cat Bol (Cat (Chr backtick) (Cat (Chr backtick) (Cat (Chr backtick)
    (Cat (Star (Cls isAsciiLetter)) (Opt (Chr 10%N)))))).

(** [/```$/]. *)
Definition fenceCloseRe : regex :=
  Cat (Chr backtick) (Cat (Chr backtick) (Cat (Chr backtick) Eol)).

Definition valid : list jsstring :=
  [lit "graph "; lit "flowchart "; lit "sequenceDiagram"; lit "classDiagram";
   lit "erDiagram"; lit "gantt"; lit "pie"].

Definition graphTD : jsstring := lit "graph TD" ++ nl.

Definition sanitizeChart (raw : jsstring) : jsstring :=
  let cleaned :=
    trim (replace fenceCloseRe [] (replace fenceOpenRe [] (trim raw))) in
  if negb (existsb (fun kw => startsWith kw cleaned) valid)
  then graphTD ++ cleaned
  else cleaned.

(** *** Promises

    A settled promise, and the two combinators the component chains on
    the engine's promise.  The callbacks run against the component's
    world, so an asynchronous computation is a world transformer that
    also yields how the promise settled. *)
Inductive Promise (A : Type) : Type :=
| Fulfilled (a : A)
| Rejected (reason : jsstring).
Arguments Fulfilled {A} a.
Arguments Rejected {A} reason.

(** *** The component and what surrounds it

    [error] and [rendered] are the two [useState] cells; [refCurrent]
    is [ref.current], [None] for [null] and otherwise the [innerHTML] of
    the attached [div]; [_idCounter] is the module-level counter;
    [engineCalls] records every call of [mermaid.render]. *)
Record World : Type := mkWorld {
  error : option jsstring;
  rendered : bool;
  refCurrent : option jsstring;
  _idCounter : nat;
  engineCalls : list (nat * jsstring)
}.

Definition Async (A : Type) : Type := World -> Promise A * World.

Definition then_ {A B : Type} (m : Async A) (f : A -> Async B) : Async B :=
  fun w =>
    match m w with
    | (Fulfilled a, w') => f a w'
    | (Rejected e, w') => (Rejected e, w')
    end.

Definition catch_ {A : Type} (m : Async A) (h : jsstring -> Async A)
  : Async A :=
  fun w =>
    match m w with
    | (Fulfilled a, w') => (Fulfilled a, w')
    | (Rejected e, w') => h e w'
    end.

(** The external engine: how the promise of [mermaid.render(id, text)]
    settles.  The identifier is ['mermaid-diagram-' + n]; the model
    keeps the number [n]. *)
Definition Engine : Type := nat -> jsstring -> Promise jsstring.

Definition setError (e : option jsstring) (w : World) : World :=
  mkWorld e (rendered w) (refCurrent w) (_idCounter w) (engineCalls w).
Definition setRendered (b : bool) (w : World) : World :=
  mkWorld (error w) b (refCurrent w) (_idCounter w) (engineCalls w).
Definition setInnerHTML (h : jsstring) (w : World) : World :=
  mkWorld (error w) (rendered w) (Some h) (_idCounter w) (engineCalls w).
Definition setRef (r : option jsstring) (w : World) : World :=
  mkWorld (error w) (rendered w) r (_idCounter w) (engineCalls w).

Definition mermaid_render (engine : Engine) (id : nat) (text : jsstring)
  : Async jsstring :=
  fun w =>
    (engine id text,
     mkWorld (error w) (rendered w) (refCurrent w) (_idCounter w)
             (engineCalls w ++ [(id, text)])).

(** [!chart || !chart.trim()] for the optional property [chart]. *)
Definition nothingToRender (chart : option jsstring) : bool :=
  match chart with
  | None => true
  | Some c => falsy c || falsy (trim c)
  end.

(** The body of the [useEffect]. *)
Definition effect (engine : Engine) (chart : option jsstring) : Async unit :=
  fun w =>
    match refCurrent w, chart with
    | None, _ => (Fulfilled tt, w)
    | Some _, None => (Fulfilled tt, w)
    | Some _, Some c =>
        if falsy c || falsy (trim c) then (Fulfilled tt, w)
        else
          let w := setRendered false (setError None w) in
          let id := S (_idCounter w) in
          let w := mkWorld (error w) (rendered w) (refCurrent w) id
                           (engineCalls w) in
          let safeChart := sanitizeChart c in
          catch_
            (then_ (mermaid_render engine id safeChart)
               (fun svg w =>
                  match refCurrent w with
                  | None => (Fulfilled tt, w)
                  | Some _ =>
                      (Fulfilled tt, setRendered true (setInnerHTML svg w))
                  end))
            (fun err w => (Fulfilled tt, setError (Some safeChart) w))
            w
    end.

(** What the component returns. *)
Inductive View : Type :=
| Placeholder
| DiagramSource (source : jsstring)
| Container.

Definition view (chart : option jsstring) (w : World) : View :=
  if nothingToRender chart then Placeholder
  else
    match error w with
    | Some e => if falsy e then Container else DiagramSource e
    | None => Container
    end.

(** Committing a view attaches the ref to the container [div] when the
    view has one (keeping its content if it was attached already) and
    clears it otherwise. *)
Definition commit (chart : option jsstring) (w : World) : World :=
  match view chart w with
  | Container =>
      match refCurrent w with
      | Some _ => w
      | None => setRef (Some []) w
      end
  | _ => setRef None w
  end.

(** What the user sees: the result of a render. *)
Inductive RenderResult : Type :=
| placeholder
| fallback (rawText : jsstring)
| svg (markup : jsstring).

Definition shown (chart : option jsstring) (w : World) : RenderResult :=
  match view chart w with
  | Placeholder => placeholder
  | DiagramSource e => fallback e
  | Container =>
      match refCurrent w with
      | Some h => svg h
      | None => svg []
      end
  end.

Definition mount : World := mkWorld None false None 0 [].

(** One render of the component for a [chart]: the view is computed
    and committed, the effect runs and the engine's promise settles,
    and the view is computed again. *)
Definition renderFrom (engine : Engine) (chart : option jsstring)
  (w : World) : Promise unit * World :=
  let (p, w') := effect engine chart (commit chart w) in
  (p, commit chart w').


(** *** The sanitizer in words

    The steps of the pipeline, written directly on the text. *)

Definition fence : jsstring := [backtick; backtick; backtick].

Fixpoint dropWhile (p : codeunit -> bool) (s : jsstring) : jsstring :=
  match s with
  | [] => []
  | c :: s' => if p c then dropWhile p s' else s
  end.

Definition dropNewline (s : jsstring) : jsstring :=
  match s with
  | c :: s' => if (c =? 10)%N then s' else s
  | [] => []
  end.

(** Strip a leading fence marker with its optional language tag. *)
Definition stripLeadingFence (s : jsstring) : jsstring :=
  if startsWith fence s
  then dropNewline (dropWhile isAsciiLetter (skipn 3 s))
  else s.

(** Strip a trailing fence. *)
Definition stripTrailingFence (s : jsstring) : jsstring :=
  if endsWith fence s then firstn (length s - 3) s else s.

Definition beginsWithKeyword (s : jsstring) : bool :=
  existsb (fun kw => startsWith kw s) valid.

Definition withDefaultKeyword (s : jsstring) : jsstring :=
  if beginsWithKeyword s then s else graphTD ++ s.

(** The pipeline as the specification lists it: trim, strip the
    fences, check the keyword. *)
Definition sanitize_spec (raw : jsstring) : jsstring :=
  withDefaultKeyword (stripTrailingFence (stripLeadingFence (trim raw))).

(** The same pipeline with a second trim after the fences are gone. *)
Definition sanitize_pipeline (raw : jsstring) : jsstring :=
  withDefaultKeyword
    (trim (stripTrailingFence (stripLeadingFence (trim raw)))).

(** The text of the specification's Scenario D, without the outer
    blanks. *)
Definition fencedEdge : jsstring :=
  lit "```mermaid" ++ nl ++ lit "A-->B" ++ nl ++ lit "```".

(** A sequence of renders of one mounted component, each with the
    chart it is given and the way the engine answers then. *)
Definition renders (rs : list (Engine * option jsstring)) (w : World) : World :=
  fold_left (fun w r => snd (renderFrom (fst r) (snd r) w)) rs w.

(** [t] is a contiguous piece of [s]. *)
Definition pieceOf (t s : jsstring) : Prop :=
  exists before after, s = before ++ t ++ after.

End Mermaid.

Import Mermaid.

(** ** [src/pages/Analysis.tsx] *)

Module Analysis.

Inductive Phase : Type := idle | fetching | analyzing | complete.

(** The [status] of an [AgentStatus]. *)
Module Status.
Inductive t : Type := pending | working | complete | error.

Definition eqb (a b : t) : bool :=
  match a, b with
  | pending, pending | working, working
  | complete, complete | error, error => true
  | _, _ => false
  end.
End Status.

(** JavaScript numbers are only stored and compared here, never
    computed with; they are rationals in the model. *)
Record AgentStatus : Type := mkAgent {
  name : jsstring;
  key : jsstring;
  status : Status.t;
  payment : Q;
  txId : jsstring;
  allocation : Q
}.

Record RepoMeta : Type := mkMeta {
  repoName : jsstring;
  fileCount : N;
  languages : list jsstring
}.

(** [AnalysisData]: the results by key; a result is kept as the text
    the stream delivered. *)
Definition AnalysisData : Type := list (jsstring * jsstring).

(** [{ ...prev, [k]: v }]. *)
Fixpoint objSet (k v : jsstring) (o : AnalysisData) : AnalysisData :=
  match o with
  | [] => [(k, v)]
  | (k', v') :: o' =>
      if JS.eqb k' k then (k, v) :: o' else (k', v') :: objSet k v o'
  end.

Record AgentDef : Type := mkDef {
  def_name : jsstring;
  color : jsstring;
  role : jsstring;
  icon : jsstring
}.

Definition middot : jsstring := lit " " ++ [183%N] ++ lit " ".

Definition AGENT_DEFS : list AgentDef :=
  [ mkDef (lit "Code Reader Agent") (lit "#8B5CF6")
          (lit "Architecture" ++ middot ++ lit "Map") [9672%N];
    mkDef (lit "Simplifier Agent") (lit "#38B2F6")
          (lit "Flow" ++ middot ++ lit "Docs" ++ middot ++ lit "Glossary")
          [9671%N];
    mkDef (lit "Analogy Agent") (lit "#88B5FC")
          (lit "CEO Deck" ++ middot ++ lit "Analogies") [9670%N];
    mkDef (lit "Insight Agent") (lit "#10B981")
          (lit "Red Flags" ++ middot ++ lit "Complexity") [9673%N] ].

(** The parsed frame of the stream, by its [type]. *)
Inductive Event : Type :=
| fetching_repo
| repo_fetched (meta : RepoMeta)
| agent_start (agent : jsstring) (payment allocation : Q)
| agent_complete (agent txId : jsstring) (payment remainingBudget : Q)
                 (key result : jsstring)
| agent_error (agent : jsstring)
| analysis_complete (data : AnalysisData)
| report_saved (shareId : jsstring)
| refund (amount : Q) (txId : jsstring)
| error (message : jsstring)
| unrecognized (type : jsstring).

(** The request an [EventSource] is opened with:
    [endpoint + '?repo=' + repo + '&budget=' + budgetParam]. *)
Record Request : Type := mkRequest {
  endpoint : jsstring;
  repo : jsstring;
  budgetParam : Q
}.

(** The component's state cells that the handlers touch, the
    [EventSource] of the running analysis ([esOpen]: created and not
    closed) and the log of the requests that were opened. *)
Record State : Type := mkState {
  repoUrl : jsstring;
  budget : Q;
  phase : Phase;
  repoMeta : option RepoMeta;
  agents : list AgentStatus;
  remainingBudget : Q;
  refundAmount : Q;
  refundTxId : jsstring;
  errorMsg : jsstring;
  data : AnalysisData;
  shareId : jsstring;
  shareCopied : bool;
  esOpen : bool;
  network : list Request
}.

Definition setErrorMsg (m : jsstring) (s : State) : State :=
  mkState (repoUrl s) (budget s) (phase s) (repoMeta s) (agents s)
          (remainingBudget s) (refundAmount s) (refundTxId s) m (data s)
          (shareId s) (shareCopied s) (esOpen s) (network s).
Definition setPhase (p : Phase) (s : State) : State :=
  mkState (repoUrl s) (budget s) p (repoMeta s) (agents s)
          (remainingBudget s) (refundAmount s) (refundTxId s) (errorMsg s)
          (data s) (shareId s) (shareCopied s) (esOpen s) (network s).
Definition setRepoMeta (m : option RepoMeta) (s : State) : State :=
  mkState (repoUrl s) (budget s) (phase s) m (agents s)
          (remainingBudget s) (refundAmount s) (refundTxId s) (errorMsg s)
          (data s) (shareId s) (shareCopied s) (esOpen s) (network s).
Definition setAgents (f : list AgentStatus -> list AgentStatus) (s : State)
  : State :=
  mkState (repoUrl s) (budget s) (phase s) (repoMeta s) (f (agents s))
          (remainingBudget s) (refundAmount s) (refundTxId s) (errorMsg s)
          (data s) (shareId s) (shareCopied s) (esOpen s) (network s).
Definition setRemainingBudget (b : Q) (s : State) : State :=
  mkState (repoUrl s) (budget s) (phase s) (repoMeta s) (agents s)
          b (refundAmount s) (refundTxId s) (errorMsg s)
          (data s) (shareId s) (shareCopied s) (esOpen s) (network s).
Definition setRefundAmount (a : Q) (s : State) : State :=
  mkState (repoUrl s) (budget s) (phase s) (repoMeta s) (agents s)
          (remainingBudget s) a (refundTxId s) (errorMsg s)
          (data s) (shareId s) (shareCopied s) (esOpen s) (network s).
Definition setRefundTxId (t : jsstring) (s : State) : State :=
  mkState (repoUrl s) (budget s) (phase s) (repoMeta s) (agents s)
          (remainingBudget s) (refundAmount s) t (errorMsg s)
          (data s) (shareId s) (shareCopied s) (esOpen s) (network s).
Definition setData (f : AnalysisData -> AnalysisData) (s : State) : State :=
  mkState (repoUrl s) (budget s) (phase s) (repoMeta s) (agents s)
          (remainingBudget s) (refundAmount s) (refundTxId s) (errorMsg s)
          (f (data s)) (shareId s) (shareCopied s) (esOpen s) (network s).
Definition setShareId (i : jsstring) (s : State) : State :=
  mkState (repoUrl s) (budget s) (phase s) (repoMeta s) (agents s)
          (remainingBudget s) (refundAmount s) (refundTxId s) (errorMsg s)
          (data s) i (shareCopied s) (esOpen s) (network s).
Definition setShareCopied (b : bool) (s : State) : State :=
  mkState (repoUrl s) (budget s) (phase s) (repoMeta s) (agents s)
          (remainingBudget s) (refundAmount s) (refundTxId s) (errorMsg s)
          (data s) (shareId s) b (esOpen s) (network s).
(** [es.close()]. *)
Definition close (s : State) : State :=
  mkState (repoUrl s) (budget s) (phase s) (repoMeta s) (agents s)
          (remainingBudget s) (refundAmount s) (refundTxId s) (errorMsg s)
          (data s) (shareId s) (shareCopied s) false (network s).
(** [new EventSource(apiUrl)]. *)
Definition newEventSource (r : Request) (s : State) : State :=
  mkState (repoUrl s) (budget s) (phase s) (repoMeta s) (agents s)
          (remainingBudget s) (refundAmount s) (refundTxId s) (errorMsg s)
          (data s) (shareId s) (shareCopied s) true (network s ++ [r]).

(** The state of a freshly mounted page with the form filled in. *)
Definition initial (url : jsstring) (b : Q) : State :=
  mkState url b idle None [] 0 0 [] [] [] [] false false [].

(** The two updates of [agents] that rewrite entries. *)
Definition completeEntry (agent tx : jsstring) (pay : Q) (a : AgentStatus)
  : AgentStatus :=
  if JS.eqb (name a) agent && Status.eqb (status a) Status.working
  then mkAgent (name a) (key a) Status.complete pay tx (allocation a)
  else a.

Definition failEntry (agent : jsstring) (a : AgentStatus) : AgentStatus :=
  if JS.eqb (name a) agent
  then mkAgent (name a) (key a) Status.error (payment a) (txId a)
               (allocation a)
  else a.

(** [es.onmessage], after [JSON.parse]. *)
Definition onmessage (ev : Event) (s : State) : State :=
  match ev with
  | fetching_repo => setPhase fetching s
  | repo_fetched meta => setPhase analyzing (setRepoMeta (Some meta) s)
  | agent_start agent pay alloc =>
      setAgents
        (fun prev =>
           prev ++ [mkAgent agent [] Status.working pay [] alloc]) s
  | agent_complete agent tx pay remaining k result =>
      setData (objSet k result)
        (setRemainingBudget remaining
           (setAgents (map (completeEntry agent tx pay)) s))
  | agent_error agent => setAgents (map (failEntry agent)) s
  | analysis_complete d => setData (fun _ => d) s
  | report_saved i => setShareId i s
  | refund amount tx =>
      close (setPhase complete (setRefundTxId tx (setRefundAmount amount s)))
  | error message => close (setPhase idle (setErrorMsg message s))
  | unrecognized _ => s
  end.

Definition connectMessage : jsstring :=
  lit "Could not connect to PayStream server. Make sure node server.js is running on port 3001.".

(** [es.onerror]. *)
Definition onerror (s : State) : State :=
  close (setPhase idle (setErrorMsg connectMessage s)).

(** What the [EventSource] hands to the page: a message or its error
    event.  Nothing is delivered once it is closed. *)
Inductive Signal : Type :=
| message (ev : Event)
| failure.

Definition deliver (sg : Signal) (s : State) : State :=
  if esOpen s then
    match sg with
    | message ev => onmessage ev s
    | failure => onerror s
    end
  else s.

Definition run (sgs : list Signal) (s : State) : State :=
  fold_left (fun s sg => deliver sg s) sgs s.

Definition emptyUrlMessage : jsstring := lit "Please enter a GitHub repo URL.".
Definition notGithubMessage : jsstring :=
  lit "Only GitHub repos are supported right now.".
Definition apiEndpoint : jsstring := lit "http://localhost:3001/api/analyze".

(** The state [startAnalysis] sets before it opens the stream. *)
Definition freshSession (s : State) : State :=
  mkState (repoUrl s) (budget s) fetching None [] (budget s) 0 [] [] []
          [] false (esOpen s) (network s).

(** [startAnalysis].  When [encodeURIComponent] throws, the state
    updates made before it stay and no [EventSource] is created. *)
Definition startAnalysis (s : State) : State :=
  let url := trim (repoUrl s) in
  if falsy url then setErrorMsg emptyUrlMessage s
  else if negb (includes (lit "github.com") url)
  then setErrorMsg notGithubMessage s
  else
    match encodeURIComponent url with
    | Some enc =>
        newEventSource (mkRequest apiEndpoint enc (budget s)) (freshSession s)
    | None => freshSession s
    end.

(** [reset]. *)
Definition reset (s : State) : State :=
  mkState (repoUrl s) (budget s) idle None [] (remainingBudget s) 0 [] []
          [] [] false (esOpen s) (network s).

(** *** What the page derives from the state *)

(** The status of a roster card:
    [agents.find((a) => a.name === def.name)?.status || 'pending']. *)
Definition slotStatus (n : jsstring) (l : list AgentStatus) : Status.t :=
  match find (fun a => JS.eqb (name a) n) l with
  | Some a => status a
  | None => Status.pending
  end.

Definition rosterNames : list jsstring := map def_name AGENT_DEFS.

Definition terminal (st : Status.t) : bool :=
  match st with
  | Status.complete | Status.error => true
  | _ => false
  end.

Definition allSlotsTerminal (s : State) : bool :=
  forallb (fun n => terminal (slotStatus n (agents s))) rosterNames.


Definition rank (p : Phase) : nat :=
  match p with
  | idle => 0
  | fetching => 1
  | analyzing => 2
  | complete => 3
  end.

(** *** The event contract in words *)

(** "Upgrades exactly the most recent entry that matches": the last
    entry of the list satisfying [p] is rewritten by [f]. *)
Fixpoint upgradeMostRecent (p : AgentStatus -> bool)
  (f : AgentStatus -> AgentStatus) (l : list AgentStatus)
  : list AgentStatus :=
  match l with
  | [] => []
  | a :: l' =>
      if p a && negb (existsb p l') then f a :: l'
      else a :: upgradeMostRecent p f l'
  end.

Definition isWorking (agent : jsstring) (a : AgentStatus) : bool :=
  JS.eqb (name a) agent && Status.eqb (status a) Status.working.

(** One step of a slot along [pending -> working -> complete | error]
    (or no step). *)
Definition statusStep (a b : Status.t) : bool :=
  match a, b with
  | Status.pending, Status.working
  | Status.working, Status.complete
  | Status.working, Status.error => true
  | _, _ => Status.eqb a b
  end.

(** A stream that follows the roster: a start names a roster agent that
    has no entry yet, and a failure names an agent whose card is
    working. *)
Definition followsRoster (sg : Signal) (s : State) : bool :=
  match sg with
  | message (agent_start agent _ _) =>
      existsb (JS.eqb agent) rosterNames
      && negb (existsb (fun a => JS.eqb (name a) agent) (agents s))
  | message (agent_error agent) =>
      Status.eqb (slotStatus agent (agents s)) Status.working
  | _ => true
  end.

Fixpoint followsRosterAll (sgs : list Signal) (s : State) : bool :=
  match sgs with
  | [] => true
  | sg :: rest =>
      followsRoster sg s && followsRosterAll rest (deliver sg s)
  end.

(** The states a run goes through, the first one included. *)
Fixpoint trace (sgs : list Signal) (s : State) : list State :=
  s :: match sgs with
       | [] => []
       | sg :: rest => trace rest (deliver sg s)
       end.


Definition isCompletion (sg : Signal) : bool :=
  match sg with
  | message (agent_complete _ _ _ _ _ _) => true
  | _ => false
  end.

(** A list of numbers that never goes up. *)
Fixpoint nonIncreasing (l : list Q) : Prop :=
  match l with
  | [] => True
  | a :: l' =>
      match l' with
      | [] => True
      | b :: _ => (b <= a)%Q
      end /\ nonIncreasing l'
  end.

(** The remaining budgets the completions of a stream carry. *)
Fixpoint completionBudgets (sgs : list Signal) : list Q :=
  match sgs with
  | [] => []
  | message (agent_complete _ _ _ remaining _ _) :: rest =>
      remaining :: completionBudgets rest
  | _ :: rest => completionBudgets rest
  end.

(** The remaining budgets of the completions that are handled: those
    delivered while the stream is open. *)
Fixpoint handledBudgets (sgs : list Signal) (s : State) : list Q :=
  match sgs with
  | [] => []
  | sg :: rest =>
      match sg with
      | message (agent_complete _ _ _ remaining _ _) =>
          if esOpen s then [remaining] else []
      | _ => []
      end ++ handledBudgets rest (deliver sg s)
  end.

(** *** Sessions *)

(** The state a session begins in: what [startAnalysis] leaves when
    it has opened the stream. *)
Definition sessionStart (s : State) : Prop :=
  phase s = fetching /\ agents s = [] /\ esOpen s = true.

(** The names in [agents] are distinct roster names. *)
Definition rosterInv (s : State) : Prop :=
  NoDup (map name (agents s)) /\ incl (map name (agents s)) rosterNames.

(** Phase complete is only ever seen with the stream closed. *)
Definition closedWhenComplete (s : State) : Prop :=
  phase s = complete -> esOpen s = false.

(** A form, the session it starts, and some frames of its stream. *)
Definition sampleForm : State :=
  initial (lit "https://github.com/facebook/react") (3 # 2).
Definition sampleSession : State := startAnalysis sampleForm.
Definition codeReader : jsstring := lit "Code Reader Agent".
Definition simplifier : jsstring := lit "Simplifier Agent".
Definition analogy : jsstring := lit "Analogy Agent".
Definition insight : jsstring := lit "Insight Agent".
Definition sampleMeta : RepoMeta :=
  mkMeta (lit "facebook/react") 120 [lit "TypeScript"].
Definition started (a : jsstring) : Signal :=
  message (agent_start a (1 # 10) 25).
Definition completed (a : jsstring) (remaining : Q) : Signal :=
  message (agent_complete a (lit "0.0.1@1") (1 # 10) remaining [] []).

(** A stream with frames of several kinds, one of them after the
    refund has closed the stream. *)
Definition sampleStream : list Signal :=
  [ message (repo_fetched sampleMeta); started codeReader;
    completed codeReader 1; started simplifier;
    completed simplifier (1 # 2);
    message (refund (1 # 10) (lit "0.0.2@7")); completed analogy 2 ].

(** *** The rest of the page *)

(** A frame whose [type] the handler knows. *)
Definition known (sg : Signal) : bool :=
  match sg with
  | message (unrecognized _) => false
  | _ => true
  end.

Definition setRepoUrl (u : jsstring) (s : State) : State :=
  mkState u (budget s) (phase s) (repoMeta s) (agents s)
          (remainingBudget s) (refundAmount s) (refundTxId s) (errorMsg s)
          (data s) (shareId s) (shareCopied s) (esOpen s) (network s).
Definition setBudget (b : Q) (s : State) : State :=
  mkState (repoUrl s) b (phase s) (repoMeta s) (agents s)
          (remainingBudget s) (refundAmount s) (refundTxId s) (errorMsg s)
          (data s) (shareId s) (shareCopied s) (esOpen s) (network s).

(** What can happen to the page: the user types a reference (or picks
    an example, which types one), moves the budget slider, submits the
    form (button or Enter key), presses ANALYZE ANOTHER REPO, or the
    stream hands over a signal. *)
Inductive Action : Type :=
| typeUrl (u : jsstring)
| slideBudget (b : Q)
| submit
| analyzeAnother
| receive (sg : Signal).

(** The form is rendered only under [phase === 'idle'] and the reset
    button only under [phase === 'complete']. *)
Definition act (a : Action) (s : State) : State :=
  match a with
  | typeUrl u =>
      match phase s with idle => setRepoUrl u s | _ => s end
  | slideBudget b =>
      match phase s with idle => setBudget b s | _ => s end
  | submit =>
      match phase s with idle => startAnalysis s | _ => s end
  | analyzeAnother =>
      match phase s with complete => reset s | _ => s end
  | receive sg => deliver sg s
  end.

Definition uiRun (acts : list Action) (s : State) : State :=
  fold_left (fun s a => act a s) acts s.

(** The numbers that come in from outside are not negative: the value
    of the budget slider (a range input from 0.5 to 5) and the
    remaining budget a completion carries. *)
Definition nonNegative (a : Action) : Prop :=
  match a with
  | slideBudget b => (0 <= b)%Q
  | receive (message (agent_complete _ _ _ remaining _ _)) =>
      (0 <= remaining)%Q
  | _ => True
  end.

(** [data[k]] for an own property. *)
Definition objGet (k : jsstring) (o : AnalysisData) : option jsstring :=
  option_map snd (find (fun kv => JS.eqb (fst kv) k) o).

(** [s.replace(pat, repl)] for a text pattern: the first occurrence. *)
Fixpoint replaceText (pat repl s : jsstring) : jsstring :=
  if startsWith pat s then repl ++ skipn (length pat) s
  else
    match s with
    | [] => []
    | c :: s' => c :: replaceText pat repl s'
    end.

(** What the lower part of a card shows. *)
Inductive Amount : Type :=
| dashes
| counting (target : Q)
| paid (payment : Q) (txLink : option jsstring)
| failed
| nothing.

(** A roster card: the title, the role line, the status glyph, the
    allocation badge ([None] for QUEUED) and the amount. *)
Record Card : Type := mkCard {
  cardTitle : jsstring;
  cardRole : jsstring;
  cardStatus : Status.t;
  badge : option Q;
  cardAmount : Amount
}.

Definition card (l : list AgentStatus) (def : AgentDef) : Card :=
  let agent := find (fun a => JS.eqb (name a) (def_name def)) l in
  let st := match agent with
            | Some a => status a
            | None => Status.pending
            end in
  mkCard (replaceText (lit " Agent") [] (def_name def)) (role def) st
         (option_map allocation agent)
         (match st, agent with
          | Status.pending, _ => dashes
          | Status.working, Some a => counting (payment a)
          | Status.complete, Some a =>
              paid (payment a) (if falsy (txId a) then None else Some (txId a))
          | Status.error, _ => failed
          | _, None => nothing
          end).

Definition cards (l : list AgentStatus) : list Card := map (card l) AGENT_DEFS.

Definition workingCount (l : list AgentStatus) : nat :=
  length (filter (fun a => Status.eqb (status a) Status.working) l).

Definition orchestratorStatus (l : list AgentStatus) : jsstring :=
  if 1 <? workingCount l then lit "PHASE 2" ++ middot ++ lit "PARALLEL DISPATCH"
  else if workingCount l =? 1 then lit "PHASE 1" ++ middot ++ lit "BOOT SEQUENCE"
  else if 0 <? length l then lit "ALL AGENTS COMPLETE"
  else lit "INITIALIZING...".

(** No stream is open while the form or the results are shown. *)
Definition quiet (s : State) : Prop :=
  phase s = idle \/ phase s = complete -> esOpen s = false.

End Analysis.

(** ** [src/components/WalletButton.tsx] *)

Module WalletButton.

(** [addr.length > 12 ? `${addr.slice(0, 5)}...${addr.slice(-4)}` : addr]. *)
Definition truncate (addr : jsstring) : jsstring :=
  if 12 <? length addr
  then firstn 5 addr ++ lit "..." ++ skipn (length addr - 4) addr
  else addr.

(** The decimal digits of a whole number, as a template literal prints
    it; [fuel] bounds the number of digits. *)
Fixpoint decimalFuel (fuel : nat) (n : N) : jsstring :=
  match fuel with
  | O => []
  | S fuel' =>
      if (n <? 10)%N then [(48 + n)%N]
      else decimalFuel fuel' (n / 10) ++ [(48 + n mod 10)%N]
  end.

Definition decimal (n : N) : jsstring :=
  decimalFuel (S (N.to_nat (N.log2 n))) n.

(** The value of a run of decimal digits. *)
Definition digitsValue (s : jsstring) : N :=
  fold_left (fun acc c => (10 * acc + (c - 48))%N) s 0%N.

(** [`0.0.${Math.floor(Math.random() * 8_000_000) + 1_000_000}`], for
    the whole number [k] that [Math.floor(Math.random() * 8_000_000)]
    gives, one of 0 .. 7,999,999. *)
Definition account (k : N) : jsstring := lit "0.0." ++ decimal (k + 1000000).

Record WalletDef : Type := mkWalletDef {
  id : jsstring;
  walletName : jsstring;
  walletIcon : jsstring;
  walletColor : jsstring;
  desc : jsstring
}.

Definition WALLETS : list WalletDef :=
  [ mkWalletDef (lit "hashpack") (lit "HashPack") [11041%N] (lit "#8B5CF6")
                (lit "Most popular Hedera wallet");
    mkWalletDef (lit "blade") (lit "Blade Wallet") [9670%N] (lit "#38B2F6")
                (lit "Browser extension wallet");
    mkWalletDef (lit "kabila") (lit "Kabila") [9673%N] (lit "#10B981")
                (lit "Mobile & web wallet") ].

Record Wallet : Type := mkWallet {
  connected : bool;
  address : jsstring;
  balance : jsstring;
  showModal : bool;
  connecting : option jsstring
}.

Definition unconnected : Wallet := mkWallet false [] [] false None.

(** What happens to the button: a click on the trigger, a mouse press
    outside the component, a click on a wallet row, the end of the
    simulated delay of [connect] (with the number and the balance text
    it draws), and a click on Disconnect. *)
Inductive Action : Type :=
| clickTrigger
| pressOutside
| chooseWallet (walletId : jsstring)
| delayOver (k : N) (bal : jsstring)
| clickDisconnect.

(** The wallet rows (one per entry of [WALLETS]) are rendered when the
    modal is open and no wallet is connected, and are disabled while
    [connecting] is set; the
    Disconnect button is rendered when the modal is open and a wallet
    is connected; the outside handler is registered while the modal is
    open; the delay is pending from [setConnecting(walletId)] to
    [setConnecting(null)]. *)
Definition act (a : Action) (w : Wallet) : Wallet :=
  match a with
  | clickTrigger =>
      mkWallet (connected w) (address w) (balance w) (negb (showModal w))
               (connecting w)
  | pressOutside =>
      if showModal w
      then mkWallet (connected w) (address w) (balance w) false (connecting w)
      else w
  | chooseWallet walletId =>
      if showModal w && negb (connected w)
      then match connecting w with
           | Some _ => w
           | None =>
               if existsb (fun d => JS.eqb (id d) walletId) WALLETS
               then mkWallet (connected w) (address w) (balance w)
                             (showModal w) (Some walletId)
               else w
           end
      else w
  | delayOver k bal =>
      match connecting w with
      | Some _ => mkWallet true (account k) bal false None
      | None => w
      end
  | clickDisconnect =>
      if showModal w && connected w
      then mkWallet false [] [] false (connecting w)
      else w
  end.

Definition runWallet (acts : list Action) (w : Wallet) : Wallet :=
  fold_left (fun w a => act a w) acts w.

(** The draw of a [delayOver] is one [Math.floor(Math.random() *
    8_000_000)] can give. *)
Definition drawn (a : Action) : Prop :=
  match a with
  | delayOver k _ => (k < 8000000)%N
  | _ => True
  end.

(** A connected wallet has no connection pending and an account id
    that the trigger shows in full; an unconnected one has neither
    address nor balance. *)
Definition consistent (w : Wallet) : Prop :=
  (connected w = true ->
   connecting w = None /\ truncate (address w) = address w /\
   startsWith (lit "0.0.") (address w) = true) /\
  (connected w = false -> address w = [] /\ balance w = []).

End WalletButton.

(** ** The shared report page ([ShareReport]) *)

Module ShareReport.

(** How the request went.  [unanswered]: the chain of promises has not
    settled, because [fetch] is pending or because the body of a 2xx
    response is still being read by [r.json()] (the effect sets no
    timeout and never aborts).  Otherwise [fetch] rejected (with the
    message of its error), or it resolved with a response, of which the
    page reads the status and the outcome of [r.json()]; [None] is a
    payload that [!report] takes for absent ([null], [false], [0] or
    the empty text) and [Some r] any other payload. *)
Inductive Fetched (R : Type) : Type :=
| unanswered
| unreachable (message : jsstring)
| responded (status : N) (json : Promise (option R)).
Arguments unanswered {R}.
Arguments unreachable {R} message.
Arguments responded {R} status json.

(** The state cells of the page. *)
Record Page (R : Type) : Type := mkPage {
  report : option R;
  loading : bool;
  error : jsstring;
  copied : bool
}.
Arguments mkPage {R} report loading error copied.
Arguments report {R} p.
Arguments loading {R} p.
Arguments error {R} p.
Arguments copied {R} p.

Definition fresh {R : Type} : Page R := mkPage None true [] false.

Definition apiReport : jsstring := lit "http://localhost:3001/api/report/".
Definition noIdMessage : jsstring := lit "No report ID provided.".
Definition notFoundMessage : jsstring := lit "Report not found or expired.".
Definition failedMessage : jsstring := lit "Failed to load report.".
Definition defaultMessage : jsstring := lit "Report not found.".

(** [r.ok]. *)
Definition ok (status : N) : bool := ((200 <=? status) && (status <=? 299))%N.

(** The [useEffect] on [shareId]: the state it leaves once the chain
    of promises has settled (the state as it was while the request is
    unanswered, since no setter has run then) and the address it
    fetched, if any. *)
Definition load {R : Type} (shareId : option jsstring)
  (fetch : jsstring -> Fetched R) (p : Page R) : Page R * option jsstring :=
  match shareId with
  | None => (mkPage (report p) false noIdMessage (copied p), None)
  | Some i =>
      if falsy i
      then (mkPage (report p) false noIdMessage (copied p), None)
      else
        (match fetch (apiReport ++ i) with
         | unanswered => p
         | unreachable m => mkPage (report p) false m (copied p)
         | responded status json =>
             if ok status then
               match json with
               | Fulfilled d => mkPage d false (error p) (copied p)
               | Rejected m => mkPage (report p) false m (copied p)
               end
             else
               mkPage (report p) false
                      (if (status =? 404)%N then notFoundMessage
                       else failedMessage)
                      (copied p)
         end,
         Some (apiReport ++ i))
  end.

(** What a render of the page comes to: one of its three views, or an
    exception thrown while the report view is built. *)
Inductive Screen (R : Type) : Type :=
| Spinner
| Failure (message : jsstring)
| Shown (r : R)
| Crash.
Arguments Spinner {R}.
Arguments Failure {R} message.
Arguments Shown {R} r.
Arguments Crash {R}.

(** The component's [return]s.  After the two guards the report is
    destructured and read without further checks ([data.insight],
    [data.insight.complexityScore.score], [meta.fileCount], ...), which
    throws for a payload that lacks what is read; [renders r] tells
    whether the payload [r] has the shape ([ReportData]) under which
    these reads succeed. *)
Definition screen {R : Type} (renders : R -> bool) (p : Page R) : Screen R :=
  if loading p then Spinner
  else
    match report p with
    | Some r =>
        if falsy (error p)
        then (if renders r then Shown r else Crash)
        else Failure (error p)
    | None =>
        Failure (if falsy (error p) then defaultMessage else error p)
    end.

(** Two payloads a server can send: a report of the shape [ReportData],
    and the number 7, which is truthy but has neither [data] nor
    [meta]. *)
Inductive SamplePayload : Type := sampleReport | seven.

Definition sampleRenders (r : SamplePayload) : bool :=
  match r with
  | sampleReport => true
  | seven => false
  end.

End ShareReport.

(** ** The task page ([Index]) *)

Module IndexPage.

(** The text before and after the first occurrence of [pat] in [s]. *)
Fixpoint splitAtFirst (pat s : jsstring) : option (jsstring * jsstring) :=
  if startsWith pat s then Some ([], skipn (length pat) s)
  else
    match s with
    | [] => None
    | c :: s' =>
        match splitAtFirst pat s' with
        | Some (before, after) => Some (c :: before, after)
        | None => None
        end
    end.

Definition opener : jsstring := lit "```mermaid" ++ nl.

(** [extractMermaid]: the loop over
    [/```mermaid\n([\s\S]*?)```/g.exec(text)].  A match begins at the
    first opener from [lastIndex] on; the lazy group ends at the first
    fence after the opener; the search goes on after that fence.  An
    opener without a fence after it is no match, and then no later
    position matches either.  [fuel] bounds the number of matches. *)
Fixpoint extractFrom (fuel : nat) (text : jsstring) : list jsstring :=
  match fuel with
  | O => []
  | S fuel' =>
      match splitAtFirst opener text with
      | None => []
      | Some (_, rest) =>
          match splitAtFirst fence rest with
          | None => []
          | Some (body, rest') => trim body :: extractFrom fuel' rest'
          end
      end
  end.

Definition extractMermaid (text : jsstring) : list jsstring :=
  extractFrom (length text) text.

End IndexPage.

(* ================================================================== *)
(** * Part II: properties                                              *)
(* ================================================================== *)

(** ** Strings *)

Section StringFacts.

Lemma eqb_eq (a b : jsstring) : JS.eqb a b = true <-> a = b.
Proof.
  unfold JS.eqb. destruct (list_eq_dec N.eq_dec a b); split; congruence.
Qed.

Lemma eqb_refl (a : jsstring) : JS.eqb a a = true.
Proof. apply eqb_eq. reflexivity. Qed.

Lemma eqb_neq (a b : jsstring) : JS.eqb a b = false <-> a <> b.
Proof.
  unfold JS.eqb. destruct (list_eq_dec N.eq_dec a b); split; congruence.
Qed.

Lemma eqb_sym (a b : jsstring) : JS.eqb a b = JS.eqb b a.
Proof.
  destruct (JS.eqb a b) eqn:E.
  - apply eqb_eq in E. subst. symmetry. apply eqb_refl.
  - symmetry. apply eqb_neq. apply eqb_neq in E. congruence.
Qed.

Lemma falsy_nil (s : jsstring) : falsy s = true <-> s = [].
Proof. destruct s; simpl; split; congruence. Qed.

Lemma trimStart_solid (s : jsstring) :
  headSolid s = true -> trimStart s = s.
Proof.
  destruct s as [|c s]; simpl; [reflexivity|].
  destruct (isWhiteSpace c); [discriminate | reflexivity].
Qed.

Lemma trimStart_headSolid (s : jsstring) : headSolid (trimStart s) = true.
Proof.
  induction s as [|c s IH]; simpl; [reflexivity|].
  destruct (isWhiteSpace c) eqn:E; [exact IH|].
  simpl. rewrite E. reflexivity.
Qed.

Lemma trimEnd_cons_solid (c : codeunit) (s : jsstring) :
  isWhiteSpace c = false -> exists t, trimEnd (c :: s) = c :: t.
Proof.
  intros E. simpl. destruct (trimEnd s) as [|d t].
  - rewrite E. exists []. reflexivity.
  - exists (d :: t). reflexivity.
Qed.

Lemma trimEnd_headSolid (s : jsstring) :
  headSolid s = true -> headSolid (trimEnd s) = true.
Proof.
  destruct s as [|c s]; [reflexivity|].
  cbn [headSolid]. intros H.
  destruct (isWhiteSpace c) eqn:E; [discriminate|].
  destruct (trimEnd_cons_solid c s E) as [t ->].
  simpl. rewrite E. reflexivity.
Qed.

Lemma trimEnd_idem (s : jsstring) : trimEnd (trimEnd s) = trimEnd s.
Proof.
  induction s as [|c s IH]; [reflexivity|].
  simpl. destruct (trimEnd s) as [|d t] eqn:E.
  - destruct (isWhiteSpace c) eqn:W; simpl; [reflexivity|].
    rewrite W. reflexivity.
  - change (trimEnd (c :: d :: t) = c :: d :: t).
    cbn [trimEnd] in IH |- *.
    cbn [trimEnd]. rewrite IH. reflexivity.
Qed.

Lemma trimEnd_app (a b : jsstring) :
  trimEnd b <> [] -> trimEnd (a ++ b) = a ++ trimEnd b.
Proof.
  intros Hb. induction a as [|c a IH]; [reflexivity|].
  simpl. rewrite IH.
  destruct (a ++ trimEnd b) eqn:E; [|reflexivity].
  apply app_eq_nil in E. tauto.
Qed.

Lemma trim_idem (s : jsstring) : trim (trim s) = trim s.
Proof.
  unfold trim.
  rewrite (trimStart_solid (trimEnd (trimStart s))).
  - apply trimEnd_idem.
  - apply trimEnd_headSolid, trimStart_headSolid.
Qed.

Lemma trim_headSolid (s : jsstring) : headSolid (trim s) = true.
Proof. apply trimEnd_headSolid, trimStart_headSolid. Qed.

Lemma trimEnd_trim (s : jsstring) : trimEnd (trim s) = trim s.
Proof. apply trimEnd_idem. Qed.

Lemma trim_blank (s : jsstring) :
  forallb isWhiteSpace s = true -> trim s = [].
Proof.
  unfold trim. induction s as [|c s IH]; simpl; [reflexivity|].
  destruct (isWhiteSpace c); simpl; [exact IH | discriminate].
Qed.

Lemma startsWith_app (p s : jsstring) : startsWith p (p ++ s) = true.
Proof.
  induction p as [|a p IH]; simpl; [reflexivity|].
  rewrite N.eqb_refl. exact IH.
Qed.

Lemma startsWith_split (p s : jsstring) :
  startsWith p s = true -> exists t, s = p ++ t.
Proof.
  revert s. induction p as [|a p IH]; intros s H.
  - exists s. reflexivity.
  - destruct s as [|b s]; [discriminate|]. simpl in H.
    apply andb_true_iff in H. destruct H as [E H].
    apply N.eqb_eq in E. subst. destruct (IH s H) as [t ->].
    exists t. reflexivity.
Qed.

Lemma trimStart_length (s : jsstring) : length (trimStart s) <= length s.
Proof.
  induction s as [|c s IH]; [reflexivity|].
  cbn [trimStart]. destruct (isWhiteSpace c); cbn [length]; lia.
Qed.

Lemma trimEnd_length (s : jsstring) : length (trimEnd s) <= length s.
Proof.
  induction s as [|c s IH]; [reflexivity|].
  cbn [trimEnd]. destruct (trimEnd s) as [|d t].
  - destruct (isWhiteSpace c); cbn [length]; lia.
  - cbn [length] in *. lia.
Qed.

Lemma trim_length (s : jsstring) : length (trim s) <= length s.
Proof.
  unfold trim. pose proof (trimEnd_length (trimStart s)).
  pose proof (trimStart_length s). lia.
Qed.

Lemma trimEnd_app_blank (a b : jsstring) :
  trimEnd b = [] -> trimEnd (a ++ b) = trimEnd a.
Proof.
  intros Hb. induction a as [|c a IH]; [exact Hb|].
  cbn [app trimEnd]. rewrite IH. reflexivity.
Qed.

(** Trimming the end of a text leaves a prefix that has nothing to trim
    in place. *)
Lemma trimEnd_prefix (a b : jsstring) :
  trimEnd a = a -> a <> [] -> exists t, trimEnd (a ++ b) = a ++ t.
Proof.
  intros Ha Hn. destruct (trimEnd b) as [|d t] eqn:E.
  - exists []. rewrite trimEnd_app_blank by exact E.
    rewrite app_nil_r. exact Ha.
  - exists (d :: t). rewrite trimEnd_app by congruence.
    rewrite E. reflexivity.
Qed.

End StringFacts.


(** ** The two regular expressions of [sanitizeChart] *)

Section FenceExpressions.

Lemma starLoop_S body (k : Cont) n pos s :
  starLoop body k (S n) pos s =
  match body pos s
          (fun pos' s' =>
             if Nat.eqb pos' pos then None else starLoop body k n pos' s')
  with
  | Some e => Some e
  | None => k pos s
  end.
Proof. reflexivity. Qed.

(** A greedy [*] over a character class, followed by a continuation
    that cannot fail, consumes the longest run of the class. *)
Lemma starLoop_class (p : codeunit -> bool) (k : Cont) :
  (forall pos s, k pos s <> None) ->
  forall n s pos,
    length s < n ->
    exists pos',
      starLoop (rmatch (Cls p)) k n pos s = k pos' (dropWhile p s).
Proof.
  intros Hk n. induction n as [|n IH]; intros s pos Hn; [lia|].
  rewrite starLoop_S.
  destruct s as [|c s]; cbn [rmatch dropWhile].
  - exists pos. reflexivity.
  - destruct (p c) eqn:Pc.
    + replace (Nat.eqb (S pos) pos) with false
        by (symmetry; apply Nat.eqb_neq; lia).
      simpl in Hn. destruct (IH s (S pos)) as [pos' He]; [lia|].
      exists pos'. cbn [rmatch] in He. rewrite He.
      destruct (k pos' (dropWhile p s)) eqn:E; [reflexivity|].
      destruct (Hk _ _ E).
    + exists pos. reflexivity.
Qed.

Lemma optNewline_accept (pos : nat) (s : jsstring) :
  exists e, rmatch (Opt (Chr 10%N)) pos s accept = Some (e, dropNewline s).
Proof.
  destruct s as [|c s]; cbn [rmatch dropNewline accept].
  - exists pos. reflexivity.
  - rewrite N.eqb_sym. destruct (c =? 10)%N; eexists; reflexivity.
Qed.

(** The opening expression matches at the start of a text that begins
    with a fence, and consumes the fence, the letters after it and one
    newline. *)
Lemma fenceOpen_match (s : jsstring) :
  exists e,
    rmatch fenceOpenRe 0 s accept =
    if startsWith fence s
    then Some (e, dropNewline (dropWhile isAsciiLetter (skipn 3 s)))
    else None.
Proof.
  unfold fenceOpenRe, fence, backtick.
  destruct s as [|a [|b [|c s]]]; cbn [rmatch startsWith Nat.eqb skipn];
    try (exists 0; repeat match goal with |- context [(96 =? ?x)%N] => destruct (96 =? x)%N end; reflexivity).
  destruct (96 =? a)%N; [|exists 0; reflexivity].
  destruct (96 =? b)%N; [|exists 0; reflexivity].
  destruct (96 =? c)%N; [|exists 0; reflexivity].
  cbn [andb].
  destruct (starLoop_class isAsciiLetter
              (fun pos' s' => rmatch (Opt (Chr 10%N)) pos' s' accept))
    with (n := S (length s)) (s := s) (pos := 3) as [pos' E].
  - intros pos0 s0. destruct (optNewline_accept pos0 s0) as [e0 ->]. discriminate.
  - lia.
  - cbn [rmatch] in E. rewrite E. destruct (optNewline_accept pos' (dropWhile isAsciiLetter s)) as [e0 E0].
    cbn [rmatch] in E0. rewrite E0.
    exists e0. reflexivity.
Qed.

Lemma fenceOpen_later (pos : nat) (s : jsstring) :
  rmatch fenceOpenRe (S pos) s accept = None.
Proof. reflexivity. Qed.

Lemma replaceFrom_fenceOpen_later (pos : nat) (s : jsstring) :
  replaceFrom fenceOpenRe [] (S pos) s = s.
Proof.
  revert pos. induction s as [|c s IH]; intros pos.
  - reflexivity.
  - cbn [replaceFrom]. rewrite fenceOpen_later. rewrite IH. reflexivity.
Qed.

Lemma replace_fenceOpen (s : jsstring) :
  replace fenceOpenRe [] s = stripLeadingFence s.
Proof.
  unfold replace, stripLeadingFence.
  destruct (fenceOpen_match s) as [e E].
  destruct s as [|c s].
  - reflexivity.
  - cbn [replaceFrom]. rewrite E.
    destruct (startsWith fence (c :: s)); [reflexivity|].
    rewrite replaceFrom_fenceOpen_later. reflexivity.
Qed.

(** The closing expression matches exactly when what is left of the
    text is a fence. *)
Lemma fenceClose_match (pos : nat) (s : jsstring) :
  rmatch fenceCloseRe pos s accept =
  if JS.eqb s fence then Some (S (S (S pos)), []) else None.
Proof.
  unfold fenceCloseRe, fence, backtick, JS.eqb.
  destruct s as [|a [|b [|c [|d s]]]]; cbn [rmatch accept];
    repeat match goal with
           | |- context [(96 =? ?x)%N] =>
               let E := fresh in
               destruct (N.eqb_spec 96 x) as [E|E]; [subst|]
           end;
    match goal with
    | |- context [list_eq_dec ?d ?x ?y] =>
        destruct (list_eq_dec d x y); try congruence
    end.
  reflexivity.
Qed.

Lemma endsWith_fence_cons (c : codeunit) (s : jsstring) :
  c :: s <> fence ->
  endsWith fence (c :: s) = endsWith fence s /\
  (endsWith fence s = true ->
   firstn (length (c :: s) - 3) (c :: s) = c :: firstn (length s - 3) s).
Proof.
  intros Hne. unfold endsWith. cbn [length fence].
  destruct (Nat.leb_spec 3 (length s)) as [Hl|Hl].
  - replace (S (length s) - 3) with (S (length s - 3)) by lia.
    split; [|reflexivity].
    replace (3 <=? S (length s)) with true
      by (symmetry; apply Nat.leb_le; lia).
    reflexivity.
  - split; [|discriminate].
    destruct (Nat.leb_spec 3 (S (length s))) as [Hl'|Hl']; [|reflexivity].
    replace (S (length s) - 3) with 0 by lia.
    cbn [skipn andb]. apply eqb_neq. exact Hne.
Qed.

Lemma replaceFrom_fenceClose (pos : nat) (s : jsstring) :
  replaceFrom fenceCloseRe [] pos s = stripTrailingFence s.
Proof.
  revert pos. induction s as [|c s IH]; intros pos.
  - reflexivity.
  - cbn [replaceFrom]. rewrite fenceClose_match.
    destruct (JS.eqb (c :: s) fence) eqn:E.
    + apply eqb_eq in E. rewrite E. reflexivity.
    + apply eqb_neq in E. rewrite IH.
      destruct (endsWith_fence_cons c s E) as [H1 H2].
      unfold stripTrailingFence. rewrite H1.
      destruct (endsWith fence s); [rewrite H2; reflexivity | reflexivity].
Qed.

Lemma replace_fenceClose (s : jsstring) :
  replace fenceCloseRe [] s = stripTrailingFence s.
Proof. apply replaceFrom_fenceClose. Qed.

End FenceExpressions.

(** ** [sanitizeChart] *)

Section Sanitizer.

Example sanitizeChart_fencedEdge :
  sanitizeChart fencedEdge = lit "graph TD" ++ nl ++ lit "A-->B".
Proof. vm_compute. reflexivity. Qed.

Example sanitizeChart_keeps_known_kind :
  sanitizeChart (lit "```" ++ nl ++ lit "pie title Pets" ++ nl ++ lit "```")
  = lit "pie title Pets".
Proof. vm_compute. reflexivity. Qed.

Lemma sanitizeChart_cleaned (raw : jsstring) :
  sanitizeChart raw =
  withDefaultKeyword
    (trim (stripTrailingFence (stripLeadingFence (trim raw)))).
Proof.
  unfold sanitizeChart, withDefaultKeyword, beginsWithKeyword.
  rewrite replace_fenceOpen, replace_fenceClose.
  destruct (existsb _ valid); reflexivity.
Qed.

Lemma withDefaultKeyword_keyword (s : jsstring) :
  beginsWithKeyword (withDefaultKeyword s) = true.
Proof.
  unfold withDefaultKeyword.
  destruct (beginsWithKeyword s) eqn:E; [exact E | reflexivity].
Qed.

Lemma sanitizeChart_keyword (raw : jsstring) :
  beginsWithKeyword (sanitizeChart raw) = true.
Proof. rewrite sanitizeChart_cleaned. apply withDefaultKeyword_keyword. Qed.



(** No keyword begins with a backtick. *)
Lemma keyword_no_fence (s : jsstring) :
  beginsWithKeyword s = true -> stripLeadingFence s = s.
Proof.
  intros H. unfold stripLeadingFence.
  destruct s as [|c s]; [reflexivity|].
  unfold fence, backtick. cbn [startsWith].
  destruct (N.eqb_spec 96 c) as [E|E]; [|reflexivity].
  subst c. vm_compute in H. discriminate.
Qed.

(** A text that begins with a keyword, has no blank at either end and
    no fence at its end is returned as it is. *)
Lemma sanitizeChart_fixed (s : jsstring) :
  beginsWithKeyword s = true ->
  trim s = s ->
  endsWith fence s = false ->
  sanitizeChart s = s.
Proof.
  intros Hk Ht Hf.
  rewrite sanitizeChart_cleaned, Ht, (keyword_no_fence s Hk).
  unfold stripTrailingFence. rewrite Hf, Ht.
  unfold withDefaultKeyword. rewrite Hk. reflexivity.
Qed.

Lemma keyword_headSolid (s : jsstring) :
  beginsWithKeyword s = true -> headSolid s = true.
Proof.
  destruct s as [|c s]; [reflexivity|]. intros H. cbn [headSolid].
  destruct (isWhiteSpace c) eqn:W; [|reflexivity].
  unfold beginsWithKeyword, valid in H. cbn [existsb] in H.
  repeat (apply orb_true_iff in H; destruct H as [H|H]);
    try discriminate;
    apply startsWith_split in H; destruct H as [t H];
    injection H as -> _; discriminate.
Qed.

Lemma endsWith_length (p s : jsstring) :
  endsWith p s = true -> length p <= length s.
Proof.
  unfold endsWith. intros H. apply andb_true_iff in H.
  destruct H as [H _]. apply Nat.leb_le. exact H.
Qed.

(** A text that [sanitizeChart] returns as it is has no blank at its
    end and no fence at its end. *)
Lemma sanitizeChart_fixed_only (r : jsstring) :
  beginsWithKeyword r = true ->
  sanitizeChart r = r ->
  trim r = r /\ endsWith fence r = false.
Proof.
  intros Hk H. rewrite sanitizeChart_cleaned in H.
  assert (Ht : trim r = r).
  { unfold withDefaultKeyword in H.
    destruct (beginsWithKeyword
                (trim (stripTrailingFence (stripLeadingFence (trim r)))))
      eqn:E.
    - rewrite <- H at 1. rewrite trim_idem. exact H.
    - remember (trim (stripTrailingFence (stripLeadingFence (trim r)))) as c
        eqn:Ec.
      destruct c as [|d c].
      + rewrite app_nil_r in H. subst r. vm_compute in Ec. discriminate.
      + unfold trim. rewrite (trimStart_solid r (keyword_headSolid r Hk)).
        rewrite <- H. rewrite trimEnd_app.
        * f_equal. rewrite Ec. apply trimEnd_trim.
        * rewrite Ec, trimEnd_trim, <- Ec. discriminate. }
  split; [exact Ht|].
  destruct (endsWith fence r) eqn:Ef; [exfalso | reflexivity].
  rewrite Ht, (keyword_no_fence r Hk) in H.
  unfold stripTrailingFence in H. rewrite Ef in H.
  pose proof (endsWith_length _ _ Ef) as Hl. cbn [length fence] in Hl.
  pose proof (trim_length (firstn (length r - 3) r)) as Hc.
  rewrite length_firstn in Hc.
  unfold withDefaultKeyword in H.
  destruct (beginsWithKeyword (trim (firstn (length r - 3) r))) eqn:E.
  - rewrite H in Hc. lia.
  - remember (trim (firstn (length r - 3) r)) as c eqn:Ec.
    assert (Hr : length r = 9 + length c)
      by (rewrite <- H, length_app; reflexivity).
    destruct c as [|c1 [|c2 [|c3 c]]];
      try (rewrite <- H in Ef; vm_compute in Ef; discriminate).
    clear Hc.
    cbn [length] in Hr.
    assert (Hy : firstn (length r - 3) r
                 = lit "graph TD"
                   ++ firstn (length r - 11) (nl ++ c1 :: c2 :: c3 :: c)).
    { remember (length r - 3) as n eqn:En.
      replace (length r - 11) with (n - 8) by lia.
      rewrite <- H. unfold graphTD. rewrite <- app_assoc.
      rewrite firstn_app. rewrite firstn_all2 by (vm_compute; lia).
      reflexivity. }
    rewrite Hy in Ec. unfold trim in Ec.
    rewrite trimStart_solid in Ec by reflexivity.
    destruct (trimEnd_prefix (lit "graph TD")
                (firstn (length r - 11) (nl ++ c1 :: c2 :: c3 :: c)))
      as [t Et]; [reflexivity | discriminate |].
    rewrite Et in Ec. rewrite Ec in E. vm_compute in E. discriminate.
Qed.

(** C9, as the claim lists the steps: the pipeline without a second
    trim differs from the code on a fenced text whose content ends
    with a newline. *)
Lemma sanitize_spec_differs_on_fenced_text :
  sanitizeChart fencedEdge <> sanitize_spec fencedEdge.
Proof. vm_compute. discriminate. Qed.

(** C9 (amended): for every text, [sanitizeChart] returns the text
    trimmed, without a leading fence marker (with its language tag and
    one newline) and without a trailing fence, trimmed again, and with
    the default keyword line in front unless it begins with one of the
    recognized keywords.  It is a total function. *)
Theorem sanitizeChart_is_pipeline :
  forall raw : jsstring, sanitizeChart raw = sanitize_pipeline raw.
Proof.
  intros raw.
  unfold sanitizeChart, sanitize_pipeline, withDefaultKeyword,
    beginsWithKeyword.
  (* the two [replace] calls are the two strips *)
  rewrite replace_fenceOpen, replace_fenceClose.
  (* [if (!valid.some(...))] against "unless it begins with a keyword" *)
  destruct (existsb
              (fun kw =>
                 startsWith kw
                   (trim (stripTrailingFence (stripLeadingFence (trim raw)))))
              valid);
    reflexivity.
Qed.

(** C2, as stated: sanitizing the empty text twice does not give what
    sanitizing it once gives. *)
Lemma sanitizeChart_not_idempotent_on_empty :
  sanitizeChart (sanitizeChart []) <> sanitizeChart [].
Proof. vm_compute. discriminate. Qed.

Example sanitizeChart_not_idempotent_on_fences :
  sanitizeChart (sanitizeChart (lit "A``````"))
  <> sanitizeChart (lit "A``````").
Proof. vm_compute. discriminate. Qed.

(** C2 (amended): sanitizing twice gives what sanitizing once gives
    whenever the sanitized text has no blank left at its end and does
    not end with a fence. *)
Theorem sanitizeChart_idempotent_when_clean :
  forall x : jsstring,
    trim (sanitizeChart x) = sanitizeChart x ->
    endsWith fence (sanitizeChart x) = false ->
    sanitizeChart (sanitizeChart x) = sanitizeChart x.
Proof.
  intros x Ht Hf. apply sanitizeChart_fixed; auto using sanitizeChart_keyword.
Qed.

Lemma sanitizeChart_idempotent_when_clean_witness :
  trim (sanitizeChart fencedEdge) = sanitizeChart fencedEdge /\
  endsWith fence (sanitizeChart fencedEdge) = false /\
  sanitizeChart (sanitizeChart fencedEdge) = sanitizeChart fencedEdge.
Proof.
  split; [vm_compute; reflexivity|]. split; [vm_compute; reflexivity|].
  apply (sanitizeChart_idempotent_when_clean fencedEdge);
    vm_compute; reflexivity.
Defined.

(** The two conditions are also necessary. *)
Lemma sanitizeChart_idempotent_only_when_clean (x : jsstring) :
  sanitizeChart (sanitizeChart x) = sanitizeChart x ->
  trim (sanitizeChart x) = sanitizeChart x /\
  endsWith fence (sanitizeChart x) = false.
Proof.
  apply sanitizeChart_fixed_only, sanitizeChart_keyword.
Qed.

End Sanitizer.

(** ** The [MermaidDiagram] component *)

Section Component.

Variable engine : Engine.

Lemma nothingToRender_blank (chart : option jsstring) :
  match chart with
  | None => True
  | Some c => forallb isWhiteSpace c = true
  end ->
  nothingToRender chart = true.
Proof.
  destruct chart as [c|]; [|reflexivity].
  intros H. unfold nothingToRender. rewrite (trim_blank c H).
  apply orb_true_r.
Qed.

Lemma effect_guard (chart : option jsstring) (w : World) :
  nothingToRender chart = true -> effect engine chart w = (Fulfilled tt, w).
Proof.
  unfold nothingToRender, effect. intros H.
  destruct (refCurrent w); [|reflexivity].
  destruct chart as [c|]; [|reflexivity].
  rewrite H. reflexivity.
Qed.

Lemma view_guard (chart : option jsstring) (w : World) :
  nothingToRender chart = true -> view chart w = Placeholder.
Proof. unfold view. intros ->. reflexivity. Qed.

(** C10: for a chart that is undefined, empty or made of white space
    only, the effect returns at its guard: the engine is not called,
    the error cell is not written, and the component shows the
    placeholder, whatever state it is in. *)
Theorem blank_chart_never_reaches_engine :
  forall (chart : option jsstring) (w : World),
    match chart with
    | None => True
    | Some c => forallb isWhiteSpace c = true
    end ->
    effect engine chart w = (Fulfilled tt, w) /\
    view chart w = Placeholder /\
    engineCalls (snd (renderFrom engine chart w)) = engineCalls w /\
    error (snd (renderFrom engine chart w)) = error w /\
    shown chart (snd (renderFrom engine chart w)) = placeholder.
Proof.
  intros chart w H. apply nothingToRender_blank in H.
  split; [apply effect_guard; exact H|].
  split; [apply view_guard; exact H|].
  unfold renderFrom. rewrite (effect_guard _ _ H). cbn [snd].
  unfold shown, commit. rewrite !(view_guard _ _ H). auto.
Qed.

(** From a state with the container attached, the effect of a chart
    that is not blank calls the engine once with the sanitized text,
    writes the markup on success and the sanitized text into the error
    cell on failure, and its promise is fulfilled either way. *)
Lemma effect_run (c : jsstring) (w : World) (h : jsstring) :
  refCurrent w = Some h ->
  nothingToRender (Some c) = false ->
  effect engine (Some c) w =
  let id := S (_idCounter w) in
  let calls := engineCalls w ++ [(id, sanitizeChart c)] in
  match engine id (sanitizeChart c) with
  | Fulfilled markup =>
      (Fulfilled tt, mkWorld None true (Some markup) id calls)
  | Rejected _ =>
      (Fulfilled tt,
       mkWorld (Some (sanitizeChart c)) false (Some h) id calls)
  end.
Proof.
  intros Hr G. unfold effect. rewrite Hr.
  cbn [nothingToRender] in G. rewrite G.
  unfold catch_, then_, mermaid_render.
  cbn [error rendered refCurrent _idCounter engineCalls setRendered
       setError].
  destruct (engine (S (_idCounter w)) (sanitizeChart c)); cbn; rewrite ?Hr;
    reflexivity.
Qed.



End Component.


Lemma blank_chart_never_reaches_engine_witness :
  forallb isWhiteSpace (lit "  ") = true /\
  engineCalls
    (snd (renderFrom (fun _ _ => Rejected []) (Some (lit "  ")) mount)) = [].
Proof.
  split; [reflexivity|].
  apply (blank_chart_never_reaches_engine (fun _ _ => Rejected [])
           (Some (lit "  ")) mount).
  reflexivity.
Defined.

(** Once a render has failed, the fallback view has no container, so
    the effect of a later chart returns at its guard: the engine is not
    called again and the source that is shown is the one of the chart
    that failed. *)
Example fallback_outlives_the_failed_chart :
  let failing : Engine := fun _ _ => Rejected (lit "Parse error") in
  let w := snd (renderFrom failing (Some (lit "A-->")) mount) in
  let w' := snd (renderFrom (fun _ _ => Fulfilled (lit "<svg/>"))
                   (Some (lit "graph LR; A-->B")) w) in
  shown (Some (lit "A-->")) w = fallback (lit "graph TD" ++ nl ++ lit "A-->") /\
  engineCalls w' = engineCalls w /\
  shown (Some (lit "graph LR; A-->B")) w'
  = fallback (lit "graph TD" ++ nl ++ lit "A-->").
Proof. vm_compute. repeat split. Qed.

Import Analysis.

(** ** The session *)

Section Session.

Lemma deliver_closed (sg : Signal) (s : State) :
  esOpen s = false -> deliver sg s = s.
Proof. unfold deliver. intros ->. reflexivity. Qed.

Lemma run_closed (sgs : list Signal) (s : State) :
  esOpen s = false -> run sgs s = s.
Proof.
  induction sgs as [|sg sgs IH]; intros H; [reflexivity|].
  cbn [run fold_left]. rewrite (deliver_closed sg s H). apply IH, H.
Qed.

Lemma run_cons (sg : Signal) (sgs : list Signal) (s : State) :
  run (sg :: sgs) s = run sgs (deliver sg s).
Proof. reflexivity. Qed.

Lemma run_app (a b : list Signal) (s : State) :
  run (a ++ b) s = run b (run a s).
Proof. apply fold_left_app. Qed.

(** *** Entries *)

Lemma completeEntry_name agent tx pay a :
  name (completeEntry agent tx pay a) = name a.
Proof. unfold completeEntry. destruct (_ && _); reflexivity. Qed.

Lemma failEntry_name agent a : name (failEntry agent a) = name a.
Proof. unfold failEntry. destruct (JS.eqb _ _); reflexivity. Qed.

Lemma map_fixed {A : Type} (f : A -> A) (l : list A) :
  (forall a, In a l -> f a = a) -> map f l = l.
Proof.
  intros H. induction l as [|a l IH]; [reflexivity|].
  simpl. rewrite H by (left; reflexivity).
  rewrite IH; [reflexivity|]. intros b Hb. apply H. right. exact Hb.
Qed.

Lemma status_eqb_eq (a b : Status.t) : Status.eqb a b = true <-> a = b.
Proof. destruct a, b; simpl; split; congruence. Qed.

(** C3, as stated: with two working entries of one agent, the handler
    completes both, not only the most recent one. *)
Lemma completion_upgrades_every_working_duplicate :
  let s := run [started codeReader; started codeReader] sampleSession in
  agents (deliver (completed codeReader 1) s)
  <> upgradeMostRecent (isWorking codeReader)
       (completeEntry codeReader (lit "0.0.1@1") (1 # 10)) (agents s).
Proof. vm_compute. discriminate. Qed.

(** C3 (amended): a completion rewrites every entry of the agent that
    is working (status, transaction and payment) and leaves every other
    entry as it is, so it changes nothing when no entry of the agent is
    working; a failure sets every working entry of the agent to error
    and leaves the entries of other agents as they are, so it changes
    nothing when the agent has no entry. *)
Theorem completion_and_failure_rewrite_matching_entries :
  forall (s : State) (agent tx : jsstring) (pay rem : Q) (k res : jsstring),
    let done := agents (onmessage (agent_complete agent tx pay rem k res) s) in
    let failed := agents (onmessage (agent_error agent) s) in
    (forall i a,
        nth_error (agents s) i = Some a ->
        nth_error done i =
        Some (if isWorking agent a
              then mkAgent (name a) (key a) Status.complete pay tx
                           (allocation a)
              else a)) /\
    length done = length (agents s) /\
    ((forall a, In a (agents s) -> isWorking agent a = false) ->
     done = agents s) /\
    (forall i a,
        nth_error (agents s) i = Some a ->
        isWorking agent a = true ->
        nth_error failed i =
        Some (mkAgent (name a) (key a) Status.error (payment a) (txId a)
                      (allocation a))) /\
    (forall i a,
        nth_error (agents s) i = Some a ->
        name a <> agent ->
        nth_error failed i = Some a) /\
    length failed = length (agents s) /\
    ((forall a, In a (agents s) -> name a <> agent) -> failed = agents s).
Proof.
  intros s agent tx pay rem k res. cbn.
  repeat split.
  - intros i a H. rewrite nth_error_map, H. reflexivity.
  - apply length_map.
  - intros H. apply map_fixed. intros a Ha.
    unfold completeEntry. fold (isWorking agent a). rewrite (H a Ha).
    reflexivity.
  - intros i a H W. rewrite nth_error_map, H. cbn. unfold failEntry.
    unfold isWorking in W. apply andb_true_iff in W. destruct W as [W _].
    rewrite W. reflexivity.
  - intros i a H N. rewrite nth_error_map, H. cbn. unfold failEntry.
    apply eqb_neq in N. rewrite N. reflexivity.
  - apply length_map.
  - intros H. apply map_fixed. intros a Ha. unfold failEntry.
    specialize (H a Ha). apply eqb_neq in H. rewrite H. reflexivity.
Qed.

(** *** The roster *)

Lemma find_app {A : Type} (f : A -> bool) (l l' : list A) :
  find f (l ++ l') =
  match find f l with
  | Some x => Some x
  | None => find f l'
  end.
Proof.
  induction l as [|a l IH]; [reflexivity|].
  simpl. destruct (f a); [reflexivity | exact IH].
Qed.

Lemma find_map_same {A : Type} (f : A -> bool) (g : A -> A) (l : list A) :
  (forall a, f (g a) = f a) ->
  find f (map g l) = option_map g (find f l).
Proof.
  intros H. induction l as [|a l IH]; [reflexivity|].
  simpl. rewrite H. destruct (f a); [reflexivity | exact IH].
Qed.

Lemma statusStep_refl (a : Status.t) : statusStep a a = true.
Proof. destruct a; reflexivity. Qed.

Lemma slotStatus_found (n : jsstring) (l : list AgentStatus) (a : AgentStatus) :
  find (fun a => JS.eqb (name a) n) l = Some a -> name a = n.
Proof.
  intros H. apply find_some in H. destruct H as [_ H].
  apply eqb_eq. exact H.
Qed.

(** One delivery moves every card along the path. *)
Lemma deliver_statusStep (sg : Signal) (s : State) (n : jsstring) :
  followsRoster sg s = true ->
  statusStep (slotStatus n (agents s)) (slotStatus n (agents (deliver sg s)))
  = true.
Proof.
  intros F. unfold deliver. destruct (esOpen s); [|apply statusStep_refl].
  destruct sg as [ev|]; [|apply statusStep_refl].
  destruct ev; cbn [onmessage]; try apply statusStep_refl.
  - (* agent_start *)
    cbn. unfold slotStatus. rewrite find_app. cbn [find name].
    destruct (find (fun a => JS.eqb (name a) n) (agents s)) as [a|] eqn:E.
    + apply statusStep_refl.
    + destruct (JS.eqb agent n) eqn:En; reflexivity.
  - (* agent_complete *)
    cbn. unfold slotStatus.
    rewrite find_map_same
      by (intros a; rewrite completeEntry_name; reflexivity).
    destruct (find (fun a => JS.eqb (name a) n) (agents s)) as [a|];
      [|reflexivity].
    cbn. unfold completeEntry.
    destruct (JS.eqb (name a) agent); cbn; [|apply statusStep_refl].
    destruct (status a) eqn:Es; cbn; rewrite ?Es; reflexivity.
  - (* agent_error *)
    cbn [followsRoster] in F. cbn. unfold slotStatus at 2.
    rewrite find_map_same
      by (intros a; rewrite failEntry_name; reflexivity).
    unfold slotStatus at 1.
    destruct (find (fun a => JS.eqb (name a) n) (agents s)) as [a|] eqn:E;
      [|reflexivity].
    cbn. unfold failEntry.
    destruct (JS.eqb (name a) agent) eqn:Ea; [|apply statusStep_refl].
    apply eqb_eq in Ea. pose proof (slotStatus_found _ _ _ E) as En.
    assert (Hn : agent = n) by congruence. clear Ea. subst agent.
    unfold slotStatus in F. rewrite E in F.
    apply status_eqb_eq in F. rewrite F. reflexivity.
Qed.

Lemma existsb_name_false (agent : jsstring) (l : list AgentStatus) :
  existsb (fun a => JS.eqb (name a) agent) l = false ->
  ~ In agent (map name l).
Proof.
  intros H Hin. apply in_map_iff in Hin. destruct Hin as [a [Ha Hin]].
  assert (existsb (fun a => JS.eqb (name a) agent) l = true).
  { apply existsb_exists. exists a. split; [exact Hin|].
    apply eqb_eq. exact Ha. }
  congruence.
Qed.

Lemma deliver_rosterInv (sg : Signal) (s : State) :
  rosterInv s -> followsRoster sg s = true -> rosterInv (deliver sg s).
Proof.
  intros [Hnd Hin] F. unfold deliver. destruct (esOpen s); [|split; assumption].
  destruct sg as [ev|]; [|split; assumption].
  destruct ev; cbn [onmessage]; try (split; assumption).
  - cbn [followsRoster] in F. apply andb_true_iff in F. destruct F as [Fr Fn].
    apply negb_true_iff in Fn. apply existsb_name_false in Fn.
    apply existsb_exists in Fr. destruct Fr as [r [Hr Er]].
    apply eqb_eq in Er. subst r.
    unfold rosterInv. cbn. rewrite map_app. cbn. split.
    + apply NoDup_app; [exact Hnd | repeat constructor; intros [] | ].
      intros x Hx [Hy|[]]. subst x. exact (Fn Hx).
    + apply incl_app; [exact Hin|]. intros x [Hx|[]]. subst x. exact Hr.
  - unfold rosterInv. cbn. rewrite map_map.
    rewrite (map_ext _ name) by (intros a; apply completeEntry_name).
    split; assumption.
  - unfold rosterInv. cbn. rewrite map_map.
    rewrite (map_ext _ name) by (intros a; apply failEntry_name).
    split; assumption.
Qed.

Lemma followsRosterAll_app (pre post : list Signal) (s : State) :
  followsRosterAll (pre ++ post) s = true ->
  followsRosterAll pre s = true /\ followsRosterAll post (run pre s) = true.
Proof.
  revert s. induction pre as [|sg pre IH]; intros s H.
  - split; [reflexivity | exact H].
  - cbn [app followsRosterAll] in H. apply andb_true_iff in H.
    destruct H as [H1 H2]. destruct (IH _ H2) as [H3 H4].
    split; [|exact H4]. cbn [followsRosterAll]. rewrite H1, H3. reflexivity.
Qed.

Lemma run_rosterInv (sgs : list Signal) (s : State) :
  rosterInv s -> followsRosterAll sgs s = true -> rosterInv (run sgs s).
Proof.
  revert s. induction sgs as [|sg sgs IH]; intros s Hi H; [exact Hi|].
  cbn [followsRosterAll] in H. apply andb_true_iff in H.
  destruct H as [H1 H2]. rewrite run_cons.
  apply IH; [apply deliver_rosterInv; assumption | exact H2].
Qed.

Lemma rosterInv_length (s : State) :
  rosterInv s -> length (agents s) <= 4.
Proof.
  intros [Hnd Hin]. rewrite <- (length_map name).
  apply (NoDup_incl_length Hnd Hin).
Qed.

(** C4, as stated: five starts in a row leave five entries. *)
Lemma five_starts_exceed_the_roster :
  ~ length (agents (run [started codeReader; started simplifier;
                         started analogy; started insight;
                         started codeReader] sampleSession)) <= 4.
Proof. vm_compute. lia. Qed.

(** C4 (amended): along every stream in which a start names a roster
    agent that has no entry yet and a failure names an agent whose
    card is working, [agents] never has more than four entries, and
    every delivery moves every card one step along pending, working,
    complete or error, or leaves it where it is. *)
Theorem roster_bound_and_status_path :
  forall (s0 : State) (pre post : list Signal) (sg : Signal),
    sessionStart s0 ->
    followsRosterAll (pre ++ sg :: post) s0 = true ->
    length (agents (run pre s0)) <= 4 /\
    length (agents (deliver sg (run pre s0))) <= 4 /\
    forall n : jsstring,
      statusStep (slotStatus n (agents (run pre s0)))
                 (slotStatus n (agents (deliver sg (run pre s0)))) = true.
Proof.
  intros s0 pre post sg [_ [Ha _]] F.
  apply followsRosterAll_app in F. destruct F as [F1 F2].
  cbn [followsRosterAll] in F2. apply andb_true_iff in F2.
  destruct F2 as [F2 _].
  assert (Hi : rosterInv (run pre s0)).
  { apply run_rosterInv; [|exact F1]. unfold rosterInv. rewrite Ha.
    split; [constructor | intros x []]. }
  split; [apply rosterInv_length, Hi|].
  split; [apply rosterInv_length, deliver_rosterInv; assumption|].
  intros n. apply deliver_statusStep, F2.
Qed.

(** *** The remaining budget *)

Lemma trace_budgets (sgs : list Signal) (s : State) :
  esOpen s = true ->
  forallb isCompletion sgs = true ->
  map remainingBudget (trace sgs s)
  = remainingBudget s :: completionBudgets sgs.
Proof.
  revert s. induction sgs as [|sg sgs IH]; intros s Ho Hc; [reflexivity|].
  cbn [forallb] in Hc. apply andb_true_iff in Hc. destruct Hc as [H1 H2].
  destruct sg as [ev|]; [|discriminate]. destruct ev; try discriminate.
  cbn [trace map completionBudgets]. f_equal.
  rewrite IH; [|unfold deliver; rewrite Ho; cbn; exact Ho | exact H2].
  unfold deliver. rewrite Ho. reflexivity.
Qed.

(** C5, as stated: the stream can raise the remaining budget, and can
    make it negative. *)
Lemma remaining_budget_can_rise_and_go_negative :
  (~ nonIncreasing
       (map remainingBudget
            (trace [completed codeReader 2] sampleSession))) /\
  (~ Forall (fun s => (0 <= remainingBudget s)%Q)
       (trace [completed codeReader (-1)] sampleSession)).
Proof.
  split.
  - vm_compute. intros [H _]. apply H. reflexivity.
  - intros H. inversion H as [|? ? _ H']; subst.
    inversion H' as [|? ? Hn _]; subst.
    vm_compute in Hn. apply Hn. reflexivity.
Qed.

(** Only a completion that is handled writes the remaining budget. *)
Lemma deliver_budget (sg : Signal) (s : State) :
  remainingBudget (deliver sg s)
  = match sg with
    | message (agent_complete _ _ _ remaining _ _) =>
        if esOpen s then remaining else remainingBudget s
    | _ => remainingBudget s
    end.
Proof.
  unfold deliver. destruct (esOpen s); [|destruct sg as [[]|]; reflexivity].
  destruct sg as [[]|]; reflexivity.
Qed.

Lemma trace_head (sgs : list Signal) (s : State) :
  exists l, trace sgs s = s :: l.
Proof. destruct sgs; eexists; reflexivity. Qed.

Lemma nonIncreasing_cons (a b : Q) (l : list Q) :
  nonIncreasing (a :: b :: l) <-> (b <= a)%Q /\ nonIncreasing (b :: l).
Proof. reflexivity. Qed.

Lemma budgets_nonIncreasing (sgs : list Signal) (s : State) :
  nonIncreasing (map remainingBudget (trace sgs s)) <->
  nonIncreasing (remainingBudget s :: handledBudgets sgs s).
Proof.
  revert s. induction sgs as [|sg sgs IH]; intros s; [reflexivity|].
  cbn [trace handledBudgets]. specialize (IH (deliver sg s)).
  destruct (trace_head sgs (deliver sg s)) as [l E]. rewrite E in *.
  cbn [map] in *. rewrite nonIncreasing_cons, IH, deliver_budget.
  destruct sg as [[]|]; cbn [app];
    try (split; [intros [_ H]; exact H | intros H; split; [apply Qle_refl | exact H]]).
  destruct (esOpen s); cbn [app].
  - rewrite nonIncreasing_cons. reflexivity.
  - split; [intros [_ H]; exact H | intros H; split; [apply Qle_refl | exact H]].
Qed.

Lemma budgets_nonNegative (sgs : list Signal) (s : State) :
  Forall (fun s => (0 <= remainingBudget s)%Q) (trace sgs s) <->
  Forall (fun b => (0 <= b)%Q) (remainingBudget s :: handledBudgets sgs s).
Proof.
  revert s. induction sgs as [|sg sgs IH]; intros s.
  - cbn. split; intros H; inversion H; subst; constructor; auto.
  - cbn [trace handledBudgets]. specialize (IH (deliver sg s)).
    rewrite deliver_budget in IH.
    split; intros H; inversion H as [|? ? H1 H2]; subst; constructor;
      try exact H1.
    + apply IH in H2. 
      destruct sg as [[]|]; cbn [app]; try (inversion H2; assumption).
      destruct (esOpen s); cbn [app]; [exact H2 | inversion H2; assumption].
    + apply IH.
      destruct sg as [[]|]; cbn [app] in *; try (constructor; assumption).
      destruct (esOpen s); cbn [app] in *; [exact H2 | constructor; assumption].
Qed.

Lemma act_nonNegative (a : Action) (s : State) :
  nonNegative a ->
  (0 <= budget s)%Q /\ (0 <= remainingBudget s)%Q ->
  (0 <= budget (act a s))%Q /\ (0 <= remainingBudget (act a s))%Q.
Proof.
  intros Ha [Hb Hr]. destruct a as [u|b| | |sg]; cbn [act nonNegative] in *.
  - destruct (phase s); cbn; auto.
  - destruct (phase s); cbn; auto.
  - destruct (phase s); auto. unfold startAnalysis.
    destruct (falsy _); [cbn; auto|]. destruct (negb _); [cbn; auto|].
    destruct (encodeURIComponent _); cbn; auto.
  - destruct (phase s); cbn; auto.
  - split.
    + unfold deliver. destruct (esOpen s); [|exact Hb].
      destruct sg as [[]|]; exact Hb.
    + rewrite deliver_budget. destruct sg as [[]|]; auto.
      destruct (esOpen s); auto.
Qed.

Lemma uiRun_nonNegative (acts : list Action) (s : State) :
  Forall nonNegative acts ->
  (0 <= budget s)%Q /\ (0 <= remainingBudget s)%Q ->
  (0 <= remainingBudget (uiRun acts s))%Q.
Proof.
  revert s. induction acts as [|a acts IH]; intros s F I; [apply I|].
  inversion F as [|? ? Ha F']; subst. cbn.
  apply (IH (act a s) F'). apply act_nonNegative; assumption.
Qed.

(** C5 (amended): over frames of every kind, in any state, only a
    completion handled while the stream is open changes the remaining
    budget, and it sets it to the value it carries.  So along any
    stream the remaining budget never goes up exactly when the values
    of the handled completions, after the value the run starts with,
    never go up, and it is never negative exactly when none of these
    values is; and from the mounted page, whatever the user does and
    the streams deliver, it is never negative as long as the budget of
    the form and the values the completions carry are not. *)
Theorem remaining_budget_follows_the_stream :
  forall (s0 : State) (sgs : list Signal),
    (forall sg : Signal,
        remainingBudget (deliver sg s0)
        = match sg with
          | message (agent_complete _ _ _ remaining _ _) =>
              if esOpen s0 then remaining else remainingBudget s0
          | _ => remainingBudget s0
          end) /\
    (nonIncreasing (map remainingBudget (trace sgs s0)) <->
     nonIncreasing (remainingBudget s0 :: handledBudgets sgs s0)) /\
    (Forall (fun s => (0 <= remainingBudget s)%Q) (trace sgs s0) <->
     Forall (fun b => (0 <= b)%Q)
            (remainingBudget s0 :: handledBudgets sgs s0)) /\
    (forall (url : jsstring) (b : Q) (acts : list Action),
        (0 <= b)%Q ->
        Forall nonNegative acts ->
        (0 <= remainingBudget (uiRun acts (initial url b)))%Q).
Proof.
  intros s0 sgs. split; [intros sg; apply deliver_budget|].
  split; [apply budgets_nonIncreasing|]. split; [apply budgets_nonNegative|].
  intros url b acts Hb F. apply uiRun_nonNegative; [exact F|].
  split; [exact Hb | apply Qle_refl].
Qed.

(** *** The refund *)







(** *** The phase *)

Lemma deliver_closedWhenComplete (sg : Signal) (s : State) :
  closedWhenComplete s -> closedWhenComplete (deliver sg s).
Proof.
  unfold closedWhenComplete, deliver. intros H.
  destruct (esOpen s) eqn:Ho; [|intros _; exact Ho].
  destruct sg as [ev|]; [destruct ev|]; cbn; intros Hc;
    first [reflexivity | discriminate | (specialize (H Hc); discriminate)].
Qed.

Lemma run_closedWhenComplete (sgs : list Signal) (s : State) :
  closedWhenComplete s -> closedWhenComplete (run sgs s).
Proof.
  revert s. induction sgs as [|sg sgs IH]; intros s H; [exact H|].
  rewrite run_cons. apply IH, deliver_closedWhenComplete, H.
Qed.

(** C7, as stated: a [fetching_repo] message that arrives during the
    analysis moves the phase back to fetching. *)
Lemma fetching_repo_moves_phase_back :
  let s := run [message (repo_fetched sampleMeta)] sampleSession in
  phase s = analyzing /\
  phase (deliver (message fetching_repo) s) = fetching /\
  rank (phase (deliver (message fetching_repo) s)) < rank (phase s).
Proof. vm_compute. repeat split; lia. Qed.

(** C7 (amended): in every session an error (an [error] message or the
    stream's error event) sets the phase to idle, and the only other
    delivery that moves the phase backward is a [fetching_repo] message
    during the analysis, which sets it to fetching; every other
    delivery leaves the phase or moves it forward. *)
Theorem phase_backward_only_by_error_or_refetch :
  forall (s0 : State) (sgs : list Signal) (sg : Signal),
    sessionStart s0 ->
    (rank (phase (deliver sg (run sgs s0))) < rank (phase (run sgs s0)) ->
     sg = failure \/ (exists m, sg = message (error m)) \/
     (sg = message fetching_repo /\ phase (run sgs s0) = analyzing /\
      phase (deliver sg (run sgs s0)) = fetching)) /\
    (esOpen (run sgs s0) = true ->
     sg = failure \/ (exists m, sg = message (error m)) ->
     phase (deliver sg (run sgs s0)) = idle).
Proof.
  intros s0 sgs sg [Hp _].
  assert (Hc : closedWhenComplete (run sgs s0)).
  { apply run_closedWhenComplete. intros H. congruence. }
  generalize dependent (run sgs s0). intros s Hc. split.
  - unfold deliver. destruct (esOpen s) eqn:Ho; [|lia].
    destruct sg as [ev|]; [destruct ev|]; cbn [onmessage]; cbn;
      intros Hlt; try lia; eauto.
    all: unfold closedWhenComplete in Hc;
      destruct (phase s) eqn:P; cbn in Hlt; try lia;
      try (specialize (Hc eq_refl); congruence).
    right. right. auto.
  - intros Ho [->|[m ->]]; unfold deliver; rewrite Ho; reflexivity.
Qed.

(** *** Starting an analysis *)

Lemma encodeURIComponent_defined (s : jsstring) :
  forallb (fun c => (c <? 55296)%N) s = true ->
  exists enc, encodeURIComponent s = Some enc.
Proof.
  induction s as [|c s IH]; intros H; [exists []; reflexivity|].
  cbn [forallb] in H. apply andb_true_iff in H. destruct H as [Hc Hs].
  destruct (IH Hs) as [enc E]. apply N.ltb_lt in Hc.
  cbn [encodeURIComponent]. rewrite E.
  destruct (isUnreserved c); [eexists; reflexivity|].
  replace (isLowSurrogate c) with false
    by (symmetry; unfold isLowSurrogate; apply andb_false_iff; left;
        apply N.leb_gt; lia).
  replace (isHighSurrogate c) with false
    by (symmetry; unfold isHighSurrogate; apply andb_false_iff; left;
        apply N.leb_gt; lia).
  replace (65536 <=? c)%N with false by (symmetry; apply N.leb_gt; lia).
  eexists; reflexivity.
Qed.




(** A reference that passes both checks and can be encoded resets the
    session and opens the stream. *)
Lemma startAnalysis_accepts (s : State) (enc : jsstring) :
  falsy (trim (repoUrl s)) = false ->
  includes (lit "github.com") (trim (repoUrl s)) = true ->
  encodeURIComponent (trim (repoUrl s)) = Some enc ->
  startAnalysis s
  = newEventSource (mkRequest apiEndpoint enc (budget s)) (freshSession s).
Proof.
  intros H1 H2 H3. unfold startAnalysis. rewrite H1, H2, H3. reflexivity.
Qed.


Lemma startAnalysis_sessionStart (s : State) (enc : jsstring) :
  falsy (trim (repoUrl s)) = false ->
  includes (lit "github.com") (trim (repoUrl s)) = true ->
  encodeURIComponent (trim (repoUrl s)) = Some enc ->
  sessionStart (startAnalysis s).
Proof.
  intros H1 H2 H3. rewrite (startAnalysis_accepts s enc H1 H2 H3).
  repeat split.
Qed.

Lemma sampleSession_sessionStart : sessionStart sampleSession.
Proof. repeat split. Qed.

(** The run of the specification's Scenario A. *)
Example scenario_A :
  let s := run [message (repo_fetched sampleMeta);
                started codeReader; started simplifier;
                started analogy; started insight;
                completed codeReader (21 # 20); completed simplifier (7 # 10);
                completed analogy (8 # 25); completed insight 0;
                message (refund (1 # 10) (lit "0.0.2@7"))] sampleSession in
  phase s = complete /\ remainingBudget s = 0%Q /\
  refundAmount s = (1 # 10)%Q /\ allSlotsTerminal s = true /\
  esOpen s = false.
Proof. vm_compute. repeat split. Qed.

(** Scenario B: a failure for an agent that never started. *)
Example scenario_B :
  let s := run [message (repo_fetched sampleMeta); started codeReader]
               sampleSession in
  agents (deliver (message (agent_error insight)) s) = agents s.
Proof. vm_compute. reflexivity. Qed.

(** Scenario C: a fatal error during the analysis resets the phase
    and closes the stream; the next start clears the agents. *)
Example scenario_C :
  let s := run [message (repo_fetched sampleMeta); started codeReader;
                message (error (lit "rate limited"))] sampleSession in
  phase s = idle /\ esOpen s = false /\ errorMsg s = lit "rate limited" /\
  length (agents s) = 1 /\
  agents (startAnalysis s) = [] /\ phase (startAnalysis s) = fetching /\
  esOpen (startAnalysis s) = true.
Proof. vm_compute. repeat split. Qed.


(** A failure that arrives after the completion of the same agent
    turns the completed entry into an error: the failure handler does
    not look at the status. *)
Example failure_overwrites_a_completed_entry :
  let s := run [message (repo_fetched sampleMeta); started codeReader;
                completed codeReader 1] sampleSession in
  slotStatus codeReader (agents s) = Status.complete /\
  slotStatus codeReader (agents (deliver (message (agent_error codeReader)) s))
  = Status.error.
Proof. vm_compute. split; reflexivity. Qed.

(** *** The theorems at work on the sample session *)

Lemma completion_and_failure_rewrite_matching_entries_witness :
  (forall a,
      In a (agents (run [started codeReader] sampleSession)) ->
      name a <> insight) /\
  agents (onmessage (agent_error insight)
            (run [started codeReader] sampleSession))
  = agents (run [started codeReader] sampleSession).
Proof.
  assert (H : forall a,
             In a (agents (run [started codeReader] sampleSession)) ->
             name a <> insight).
  { intros a [<-|[]]. vm_compute. discriminate. }
  split; [exact H|].
  pose proof (completion_and_failure_rewrite_matching_entries
                (run [started codeReader] sampleSession)
                insight [] 0%Q 0%Q [] []) as T.
  cbv zeta in T. destruct T as (_ & _ & _ & _ & _ & _ & T).
  apply T. exact H.
Defined.

Lemma roster_bound_and_status_path_witness :
  sessionStart sampleSession /\
  followsRosterAll
    ([message (repo_fetched sampleMeta); started codeReader]
       ++ completed codeReader 1 :: [message (agent_error simplifier)])
    sampleSession = false /\
  followsRosterAll
    ([message (repo_fetched sampleMeta); started codeReader]
       ++ completed codeReader 1 :: [started simplifier])
    sampleSession = true /\
  length
    (agents
       (deliver (completed codeReader 1)
          (run [message (repo_fetched sampleMeta); started codeReader]
               sampleSession))) <= 4.
Proof.
  split; [repeat split|]. split; [vm_compute; reflexivity|].
  split; [vm_compute; reflexivity|].
  apply (roster_bound_and_status_path sampleSession
           [message (repo_fetched sampleMeta); started codeReader]
           [started simplifier] (completed codeReader 1)).
  - repeat split.
  - vm_compute. reflexivity.
Defined.

Lemma remaining_budget_follows_the_stream_witness :
  handledBudgets sampleStream sampleSession = [1%Q; (1 # 2)%Q] /\
  nonIncreasing (map remainingBudget (trace sampleStream sampleSession)) /\
  Forall (fun s => (0 <= remainingBudget s)%Q)
         (trace sampleStream sampleSession) /\
  (0 <= remainingBudget
          (uiRun [slideBudget 2; submit; receive (started codeReader);
                  receive (completed codeReader (3 # 2))]
             (initial (lit "github.com/facebook/react") (3 # 2))))%Q.
Proof.
  split; [reflexivity|].
  destruct (remaining_budget_follows_the_stream sampleSession sampleStream)
    as (_ & Hmono & Hpos & Hpage).
  split; [|split].
  - apply Hmono. vm_compute. repeat split; discriminate.
  - apply Hpos. repeat constructor; vm_compute; discriminate.
  - apply Hpage; [vm_compute; discriminate|].
    repeat constructor; vm_compute; discriminate.
Defined.


Lemma phase_backward_only_by_error_or_refetch_witness :
  sessionStart sampleSession /\
  rank (phase (deliver (message (error (lit "rate limited")))
                 (run [message (repo_fetched sampleMeta)] sampleSession)))
  < rank (phase (run [message (repo_fetched sampleMeta)] sampleSession)) /\
  phase (deliver (message (error (lit "rate limited")))
           (run [message (repo_fetched sampleMeta)] sampleSession)) = idle.
Proof.
  split; [repeat split|]. split; [vm_compute; lia|].
  apply (phase_backward_only_by_error_or_refetch sampleSession
           [message (repo_fetched sampleMeta)]
           (message (error (lit "rate limited")))).
  - repeat split.
  - reflexivity.
  - right. exists (lit "rate limited"). reflexivity.
Defined.


End Session.

(** ** More on [sanitizeChart] *)

Section SanitizerMore.

Lemma trimStart_blank_app (a s : jsstring) :
  forallb isWhiteSpace a = true -> trimStart (a ++ s) = trimStart s.
Proof.
  induction a as [|c a IH]; intros H; [reflexivity|].
  cbn [forallb] in H. apply andb_true_iff in H. destruct H as [Hc Ha].
  cbn [app trimStart]. rewrite Hc. apply IH, Ha.
Qed.

Lemma trimEnd_blank (b : jsstring) :
  forallb isWhiteSpace b = true -> trimEnd b = [].
Proof.
  induction b as [|c b IH]; intros H; [reflexivity|].
  cbn [forallb] in H. apply andb_true_iff in H. destruct H as [Hc Hb].
  cbn [trimEnd]. rewrite (IH Hb), Hc. reflexivity.
Qed.

Lemma trimStart_app_blank (s b : jsstring) :
  forallb isWhiteSpace b = true ->
  trimStart (s ++ b) = [] /\ trimStart s = [] \/
  trimStart (s ++ b) = trimStart s ++ b.
Proof.
  intros Hb. induction s as [|c s IH].
  - left. split; [|reflexivity]. cbn [app].
    rewrite <- (app_nil_r b), trimStart_blank_app by exact Hb. reflexivity.
  - cbn [app trimStart]. destruct (isWhiteSpace c); [exact IH|].
    right. reflexivity.
Qed.

Lemma trim_blank_around (a s b : jsstring) :
  forallb isWhiteSpace a = true ->
  forallb isWhiteSpace b = true ->
  trim (a ++ s ++ b) = trim s.
Proof.
  intros Ha Hb. unfold trim. rewrite trimStart_blank_app by exact Ha.
  destruct (trimStart_app_blank s b Hb) as [[E1 E2]|E].
  - rewrite E1, E2. reflexivity.
  - rewrite E. apply trimEnd_app_blank, trimEnd_blank, Hb.
Qed.

(** X1: whatever the text, what [sanitizeChart] returns begins with
    one of the seven diagram keywords; in particular it is never
    empty. *)
Theorem sanitizeChart_begins_with_a_keyword :
  forall raw : jsstring,
    exists kw rest, In kw valid /\ sanitizeChart raw = kw ++ rest.
Proof.
  intros raw. pose proof (sanitizeChart_keyword raw) as H.
  unfold beginsWithKeyword in H. apply existsb_exists in H.
  destruct H as [kw [Hin Hs]]. apply startsWith_split in Hs.
  destruct Hs as [rest E]. exists kw, rest. split; assumption.
Qed.

(** X2: the texts [sanitizeChart] returns unchanged are exactly those
    that begin with a keyword, have no white space at either end and do
    not end with a fence. *)
Theorem sanitizeChart_fixed_points :
  forall s : jsstring,
    sanitizeChart s = s <->
    beginsWithKeyword s = true /\ trim s = s /\ endsWith fence s = false.
Proof.
  intros s. split.
  - intros H. assert (Hk : beginsWithKeyword s = true)
      by (rewrite <- H; apply sanitizeChart_keyword).
    split; [exact Hk|]. apply sanitizeChart_fixed_only; assumption.
  - intros (Hk & Ht & Hf). apply sanitizeChart_fixed; assumption.
Qed.

Lemma sanitizeChart_fixed_points_witness :
  beginsWithKeyword (lit "pie title Pets") = true /\
  sanitizeChart (lit "pie title Pets") = lit "pie title Pets".
Proof.
  split; [reflexivity|].
  apply (proj2 (sanitizeChart_fixed_points (lit "pie title Pets"))).
  repeat split.
Defined.

(** X4: white space around the text makes no difference. *)
Theorem sanitizeChart_ignores_outer_blanks :
  forall a s b : jsstring,
    forallb isWhiteSpace a = true ->
    forallb isWhiteSpace b = true ->
    sanitizeChart (a ++ s ++ b) = sanitizeChart s.
Proof.
  intros a s b Ha Hb. rewrite !sanitizeChart_cleaned.
  rewrite (trim_blank_around a s b Ha Hb). reflexivity.
Qed.

Lemma dropWhile_app_stop (p : codeunit -> bool) (a : jsstring) (c : codeunit)
  (s : jsstring) :
  forallb p a = true -> p c = false -> dropWhile p (a ++ c :: s) = c :: s.
Proof.
  intros Ha Hc. induction a as [|d a IH].
  - cbn. rewrite Hc. reflexivity.
  - cbn [forallb] in Ha. apply andb_true_iff in Ha. destruct Ha as [Hd Ha].
    cbn [app dropWhile]. rewrite Hd. apply IH, Ha.
Qed.

Lemma endsWith_app (p x : jsstring) : endsWith p (x ++ p) = true.
Proof.
  unfold endsWith. rewrite length_app.
  replace (length x + length p - length p) with (length x) by lia.
  rewrite skipn_app, skipn_all, Nat.sub_diag. cbn [app skipn].
  rewrite eqb_refl.
  replace (length p <=? length x + length p) with true
    by (symmetry; apply Nat.leb_le; lia).
  reflexivity.
Qed.

Lemma stripTrailingFence_app (x : jsstring) :
  stripTrailingFence (x ++ fence) = x.
Proof.
  unfold stripTrailingFence. rewrite endsWith_app, length_app.
  cbn [length fence].
  replace (length x + 3 - 3) with (length x) by lia.
  rewrite firstn_app, firstn_all, Nat.sub_diag. cbn [firstn].
  apply app_nil_r.
Qed.

Lemma trimmed_trimEnd (s : jsstring) : trim s = s -> trimEnd s = s.
Proof. intros H. rewrite <- H at 1. rewrite trimEnd_trim. exact H. Qed.

(** X3: a diagram wrapped in a fenced block is unwrapped.  For a
    language tag made of ASCII letters (of either case, possibly empty)
    and a diagram that begins with a keyword and has no white space at
    either end, sanitizing the block gives back the diagram. *)
Theorem sanitizeChart_unwraps_fenced_block :
  forall tag body : jsstring,
    forallb isAsciiLetter tag = true ->
    beginsWithKeyword body = true ->
    trim body = body ->
    sanitizeChart (fence ++ tag ++ nl ++ body ++ nl ++ fence) = body.
Proof.
  intros tag body Htag Hk Ht. rewrite sanitizeChart_cleaned.
  assert (Hwhole : trim (fence ++ tag ++ nl ++ body ++ nl ++ fence)
                   = fence ++ tag ++ nl ++ body ++ nl ++ fence).
  { unfold trim. rewrite trimStart_solid by reflexivity.
    rewrite !app_assoc. rewrite trimEnd_app by discriminate. reflexivity. }
  rewrite Hwhole.
  assert (Hlead : stripLeadingFence (fence ++ tag ++ nl ++ body ++ nl ++ fence)
                  = body ++ nl ++ fence).
  { unfold stripLeadingFence. rewrite startsWith_app.
    change (skipn 3 (fence ++ tag ++ nl ++ body ++ nl ++ fence))
      with (tag ++ nl ++ body ++ nl ++ fence).
    change (nl ++ body ++ nl ++ fence) with (10%N :: body ++ nl ++ fence).
    rewrite dropWhile_app_stop by (exact Htag || reflexivity).
    reflexivity. }
  rewrite Hlead.
  rewrite (app_assoc body nl fence), stripTrailingFence_app.
  assert (Htrim : trim (body ++ nl) = body).
  { unfold trim.
    rewrite trimStart_solid.
    - rewrite trimEnd_app_blank by reflexivity. apply trimmed_trimEnd, Ht.
    - pose proof (keyword_headSolid body Hk) as Hh.
      destruct body; [discriminate | exact Hh]. }
  rewrite Htrim. unfold withDefaultKeyword. rewrite Hk. reflexivity.
Qed.

Lemma sanitizeChart_unwraps_fenced_block_witness :
  forallb isAsciiLetter (lit "Mermaid") = true /\
  beginsWithKeyword (lit "pie title Pets") = true /\
  trim (lit "pie title Pets") = lit "pie title Pets" /\
  sanitizeChart (fence ++ lit "Mermaid" ++ nl ++ lit "pie title Pets"
                   ++ nl ++ fence)
  = lit "pie title Pets".
Proof.
  split; [reflexivity|]. split; [reflexivity|]. split; [reflexivity|].
  apply (sanitizeChart_unwraps_fenced_block (lit "Mermaid")
           (lit "pie title Pets")); reflexivity.
Defined.

Lemma sanitizeChart_ignores_outer_blanks_witness :
  forallb isWhiteSpace (lit "  ") = true /\
  forallb isWhiteSpace nl = true /\
  sanitizeChart (lit "  " ++ lit "A-->B" ++ nl) = sanitizeChart (lit "A-->B").
Proof.
  split; [reflexivity|]. split; [reflexivity|].
  apply (sanitizeChart_ignores_outer_blanks (lit "  ") (lit "A-->B") nl);
    reflexivity.
Defined.

(** *** Nothing is invented *)

Lemma pieceOf_refl (s : jsstring) : pieceOf s s.
Proof. exists [], []. rewrite app_nil_r. reflexivity. Qed.

Lemma pieceOf_trans (a b c : jsstring) :
  pieceOf a b -> pieceOf b c -> pieceOf a c.
Proof.
  intros [p [q ->]] [p' [q' ->]]. exists (p' ++ p), (q ++ q').
  rewrite <- !app_assoc. reflexivity.
Qed.

Lemma pieceOf_suffix (p s : jsstring) : pieceOf s (p ++ s).
Proof. exists p, []. rewrite app_nil_r. reflexivity. Qed.

Lemma pieceOf_prefix (s q : jsstring) : pieceOf s (s ++ q).
Proof. exists [], q. reflexivity. Qed.

Lemma trimStart_suffix (s : jsstring) : exists p, s = p ++ trimStart s.
Proof.
  induction s as [|c s [p IH]]; [exists []; reflexivity|].
  cbn [trimStart]. destruct (isWhiteSpace c).
  - exists (c :: p). cbn. rewrite <- IH. reflexivity.
  - exists []. reflexivity.
Qed.

Lemma trimEnd_prefix_of (s : jsstring) : exists q, s = trimEnd s ++ q.
Proof.
  induction s as [|c s [q IH]]; [exists []; reflexivity|].
  cbn [trimEnd]. destruct (trimEnd s) as [|d t] eqn:E.
  - destruct (isWhiteSpace c).
    + exists (c :: s). reflexivity.
    + exists s. reflexivity.
  - exists q. cbn. rewrite IH at 1. reflexivity.
Qed.

Lemma trim_pieceOf (s : jsstring) : pieceOf (trim s) s.
Proof.
  unfold trim. destruct (trimStart_suffix s) as [p Hp].
  destruct (trimEnd_prefix_of (trimStart s)) as [q Hq].
  exists p, q. rewrite <- Hq. exact Hp.
Qed.

Lemma dropWhile_suffix (p : codeunit -> bool) (s : jsstring) :
  exists a, s = a ++ dropWhile p s.
Proof.
  induction s as [|c s [a IH]]; [exists []; reflexivity|].
  cbn [dropWhile]. destruct (p c).
  - exists (c :: a). cbn. rewrite <- IH. reflexivity.
  - exists []. reflexivity.
Qed.

Lemma stripLeadingFence_pieceOf (s : jsstring) :
  pieceOf (stripLeadingFence s) s.
Proof.
  unfold stripLeadingFence. destruct (startsWith fence s); [|apply pieceOf_refl].
  apply pieceOf_trans with (skipn 3 s).
  - destruct (dropWhile_suffix isAsciiLetter (skipn 3 s)) as [a Ha].
    rewrite Ha at 2. apply pieceOf_trans with (dropWhile isAsciiLetter (skipn 3 s));
      [|apply pieceOf_suffix].
    unfold dropNewline. destruct (dropWhile isAsciiLetter (skipn 3 s)) as [|c t];
      [apply pieceOf_refl|].
    destruct (c =? 10)%N; [apply (pieceOf_suffix [c]) | apply pieceOf_refl].
  - exists (firstn 3 s), []. rewrite app_nil_r. symmetry.
    apply firstn_skipn.
Qed.

Lemma stripTrailingFence_pieceOf (s : jsstring) :
  pieceOf (stripTrailingFence s) s.
Proof.
  unfold stripTrailingFence. destruct (endsWith fence s); [|apply pieceOf_refl].
  exists [], (skipn (length s - 3) s). cbn [app]. symmetry.
  apply firstn_skipn.
Qed.

(** X5: [sanitizeChart] invents nothing: what it returns is a
    contiguous piece of the text it was given, with the line
    [graph TD] in front when that piece does not begin with a
    keyword. *)
Theorem sanitizeChart_returns_a_piece_of_the_text :
  forall raw : jsstring,
    exists piece,
      pieceOf piece raw /\
      sanitizeChart raw
      = if beginsWithKeyword piece then piece else graphTD ++ piece.
Proof.
  intros raw.
  exists (trim (stripTrailingFence (stripLeadingFence (trim raw)))).
  split; [|apply sanitizeChart_cleaned].
  eapply pieceOf_trans; [apply trim_pieceOf|].
  eapply pieceOf_trans; [apply stripTrailingFence_pieceOf|].
  eapply pieceOf_trans; [apply stripLeadingFence_pieceOf|].
  apply trim_pieceOf.
Qed.

End SanitizerMore.

(** ** More on the component *)

Section ComponentMore.

Lemma commit_calls (chart : option jsstring) (w : World) :
  engineCalls (commit chart w) = engineCalls w /\
  _idCounter (commit chart w) = _idCounter w /\
  Mermaid.error (commit chart w) = Mermaid.error w.
Proof.
  unfold commit. destruct (view chart w); try (repeat split; reflexivity).
  destruct (refCurrent w); repeat split; reflexivity.
Qed.

(** A render leaves the log of calls as it is, or adds one call with
    the next number and the sanitized chart. *)
Lemma renderFrom_calls (engine : Engine) (chart : option jsstring) (w : World) :
  (engineCalls (snd (renderFrom engine chart w)) = engineCalls w /\
   _idCounter (snd (renderFrom engine chart w)) = _idCounter w) \/
  (exists c, chart = Some c /\
             engineCalls (snd (renderFrom engine chart w))
             = engineCalls w ++ [(S (_idCounter w), sanitizeChart c)] /\
             _idCounter (snd (renderFrom engine chart w)) = S (_idCounter w)).
Proof.
  unfold renderFrom.
  destruct (commit_calls chart w) as (Hc & Hi & _).
  destruct (nothingToRender chart) eqn:G.
  - left. rewrite (effect_guard engine _ _ G). cbn [snd].
    destruct (commit_calls chart (commit chart w)) as (Hc' & Hi' & _).
    rewrite Hc', Hi', Hc, Hi. auto.
  - destruct chart as [c|]; [|discriminate].
    destruct (refCurrent (commit (Some c) w)) as [h|] eqn:Hr.
    + right. exists c. split; [reflexivity|].
      rewrite (effect_run engine c _ h Hr G). cbv zeta.
      rewrite Hc, Hi.
      destruct (engine (S (_idCounter w)) (sanitizeChart c)); cbn [snd];
        match goal with
        | |- context [commit ?ch ?x] =>
            destruct (commit_calls ch x) as (Hc' & Hi' & _);
            rewrite Hc', Hi'
        end; auto.
    + left. unfold effect. rewrite Hr. cbn [snd].
      destruct (commit_calls (Some c) (commit (Some c) w)) as (Hc' & Hi' & _).
      rewrite Hc', Hi', Hc, Hi. auto.
Qed.

Lemma StronglySorted_snoc (l : list nat) (x : nat) :
  StronglySorted lt l -> Forall (fun y => y < x) l ->
  StronglySorted lt (l ++ [x]).
Proof.
  intros Hs Hf. induction Hs as [|a l Hs IH Ha]; cbn.
  - constructor; constructor.
  - inversion Hf as [|? ? Hax Hl]; subst. constructor; [apply IH, Hl|].
    apply Forall_app. split; [exact Ha | constructor; [exact Hax | constructor]].
Qed.

(** X6: over any sequence of renders of a mounted component, whatever
    the charts and however the engine answers, the identifiers given to
    the engine are strictly increasing, so no two calls share one; each
    lies between 1 and the counter, and each call carries a text that
    begins with a diagram keyword. *)
Theorem engine_identifiers_are_fresh :
  forall rs : list (Engine * option jsstring),
    StronglySorted lt (map fst (engineCalls (renders rs mount))) /\
    Forall (fun c => 1 <= fst c <= _idCounter (renders rs mount))
           (engineCalls (renders rs mount)) /\
    Forall (fun c => beginsWithKeyword (snd c) = true)
           (engineCalls (renders rs mount)).
Proof.
  intros rs. unfold renders.
  assert (H0 : StronglySorted lt (map fst (engineCalls mount)) /\
               Forall (fun c => 1 <= fst c <= _idCounter mount)
                      (engineCalls mount) /\
               Forall (fun c => beginsWithKeyword (snd c) = true)
                      (engineCalls mount))
    by (cbn; repeat split; constructor).
  revert H0. generalize mount as w.
  induction rs as [|[engine chart] rs IH]; intros w H0; [exact H0|].
  cbn [fold_left fst snd]. apply IH. destruct H0 as (Hs & Hb & Hk).
  destruct (renderFrom_calls engine chart w) as [[Hc Hi]|[c (_ & Hc & Hi)]];
    rewrite Hc, Hi.
  - auto.
  - rewrite map_app. cbn [map fst]. split; [|split].
    + apply StronglySorted_snoc; [exact Hs|].
      apply Forall_map. eapply Forall_impl; [|exact Hb].
      cbn. intros a Ha. lia.
    + apply Forall_app. split.
      * eapply Forall_impl; [|exact Hb]. cbn. intros a Ha. lia.
      * constructor; [cbn; lia | constructor].
    + apply Forall_app. split; [exact Hk|].
      constructor; [apply sanitizeChart_keyword | constructor].
Qed.

(** X7: a failure sticks.  Once the error cell holds a source text,
    every later render, whatever its chart and whatever the engine
    would answer, returns at the guard of the effect: the engine is not
    called, the error cell is not cleared, and the view is the
    placeholder for a blank chart and the old source otherwise. *)
Theorem failure_is_never_cleared :
  forall (engine : Engine) (chart : option jsstring) (w : World)
         (e : jsstring),
    Mermaid.error w = Some e ->
    falsy e = false ->
    engineCalls (snd (renderFrom engine chart w)) = engineCalls w /\
    Mermaid.error (snd (renderFrom engine chart w)) = Some e /\
    shown chart (snd (renderFrom engine chart w))
    = if nothingToRender chart then placeholder else fallback e.
Proof.
  intros engine chart w e He Hf.
  assert (Hv : view chart w = if nothingToRender chart then Placeholder
                              else DiagramSource e).
  { unfold view. rewrite He, Hf. reflexivity. }
  assert (Hc : commit chart w = setRef None w).
  { unfold commit. rewrite Hv. destruct (nothingToRender chart); reflexivity. }
  unfold renderFrom. rewrite Hc.
  assert (Heff : effect engine chart (setRef None w)
                 = (Fulfilled tt, setRef None w)) by reflexivity.
  rewrite Heff. cbn [snd].
  assert (Hv' : view chart (setRef None w)
                = if nothingToRender chart then Placeholder
                  else DiagramSource e).
  { unfold view. cbn [Mermaid.error setRef]. rewrite He, Hf. reflexivity. }
  assert (Hc' : commit chart (setRef None w) = setRef None w).
  { unfold commit. rewrite Hv'. destruct (nothingToRender chart); reflexivity. }
  rewrite Hc'. split; [reflexivity|]. split; [exact He|].
  unfold shown. rewrite Hv'. destruct (nothingToRender chart); reflexivity.
Qed.

Lemma failure_is_never_cleared_witness :
  let w := snd (renderFrom (fun _ _ => Rejected (lit "Parse error"))
                  (Some (lit "A-->")) mount) in
  Mermaid.error w = Some (graphTD ++ lit "A-->") /\
  falsy (graphTD ++ lit "A-->") = false /\
  shown (Some (lit "graph LR"))
    (snd (renderFrom (fun _ _ => Fulfilled (lit "<svg/>"))
            (Some (lit "graph LR")) w))
  = fallback (graphTD ++ lit "A-->").
Proof.
  cbv zeta. split; [reflexivity|]. split; [reflexivity|].
  apply (failure_is_never_cleared (fun _ _ => Fulfilled (lit "<svg/>"))
           (Some (lit "graph LR"))
           (snd (renderFrom (fun _ _ => Rejected (lit "Parse error"))
                   (Some (lit "A-->")) mount))
           (graphTD ++ lit "A-->")); reflexivity.
Defined.

End ComponentMore.

(** ** More on the session *)

Section SessionMore.

Lemma deliver_closes (sg : Signal) (s : State) :
  esOpen s = true ->
  match sg with
  | message (refund _ _) | message (error _) | failure => True
  | _ => False
  end ->
  esOpen (deliver sg s) = false.
Proof.
  intros Ho H. unfold deliver. rewrite Ho.
  destruct sg as [[]|]; try contradiction; reflexivity.
Qed.

(** X8: a refund frame, an error frame and the stream's error event
    end the session: whatever the stream delivers afterwards, the state
    stays exactly as that signal left it. *)
Theorem nothing_is_handled_after_the_stream_ends :
  forall (s : State) (sg : Signal) (later : list Signal),
    esOpen s = true ->
    match sg with
    | message (refund _ _) | message (error _) | failure => True
    | _ => False
    end ->
    run (sg :: later) s = deliver sg s /\
    phase (run (sg :: later) s)
    = match sg with message (refund _ _) => complete | _ => idle end.
Proof.
  intros s sg later Ho H. rewrite run_cons.
  rewrite (run_closed later _ (deliver_closes sg s Ho H)).
  split; [reflexivity|]. unfold deliver. rewrite Ho.
  destruct sg as [[]|]; try contradiction; reflexivity.
Qed.

Lemma nothing_is_handled_after_the_stream_ends_witness :
  esOpen sampleSession = true /\
  run [message (error (lit "rate limited")); started codeReader;
       message (refund (1 # 10) (lit "0.0.2@7"))] sampleSession
  = deliver (message (error (lit "rate limited"))) sampleSession.
Proof.
  split; [reflexivity|].
  apply (nothing_is_handled_after_the_stream_ends sampleSession
           (message (error (lit "rate limited")))
           [started codeReader; message (refund (1 # 10) (lit "0.0.2@7"))]).
  - reflexivity.
  - exact I.
Defined.

Lemma deliver_unrecognized (t : jsstring) (s : State) :
  deliver (message (unrecognized t)) s = s.
Proof. unfold deliver. destruct (esOpen s); reflexivity. Qed.

(** X9: frames of an unknown type are transparent: a stream and the
    same stream without them lead to the same state, wherever they
    sit. *)
Theorem unknown_frames_change_nothing :
  forall (sgs : list Signal) (s : State),
    run (filter known sgs) s = run sgs s.
Proof.
  induction sgs as [|sg sgs IH]; intros s; [reflexivity|].
  cbn [filter]. destruct sg as [ev|].
  - destruct ev; cbn [known]; rewrite ?run_cons; try apply IH.
    rewrite deliver_unrecognized. apply IH.
  - cbn [known]. rewrite !run_cons. apply IH.
Qed.

(** The stream has no handle on the form or on the network. *)
Lemma deliver_keeps_form (sg : Signal) (s : State) :
  repoUrl (deliver sg s) = repoUrl s /\
  budget (deliver sg s) = budget s /\
  network (deliver sg s) = network s.
Proof.
  unfold deliver. destruct (esOpen s); [|auto].
  destruct sg as [[]|]; cbn; auto.
Qed.

(** X15: whatever the stream delivers, it never changes the reference
    or the budget the user entered and never opens a connection. *)
Theorem stream_never_touches_form_or_network :
  forall (sgs : list Signal) (s : State),
    repoUrl (run sgs s) = repoUrl s /\
    budget (run sgs s) = budget s /\
    network (run sgs s) = network s.
Proof.
  induction sgs as [|sg sgs IH]; intros s; [auto|].
  rewrite run_cons. destruct (IH (deliver sg s)) as (H1 & H2 & H3).
  destruct (deliver_keeps_form sg s) as (G1 & G2 & G3).
  rewrite H1, H2, H3. auto.
Qed.

(** *** The page as a whole *)

Lemma deliver_quiet (sg : Signal) (s : State) :
  quiet s -> quiet (deliver sg s).
Proof.
  unfold quiet, deliver. intros H.
  destruct (esOpen s) eqn:Ho; [|intros _; exact Ho].
  destruct sg as [[]|]; cbn; intros Hp;
    first [reflexivity
          | (destruct Hp; discriminate)
          | (specialize (H Hp); discriminate)].
Qed.

Lemma startAnalysis_quiet (s : State) :
  quiet s -> quiet (startAnalysis s).
Proof.
  unfold quiet, startAnalysis. intros H.
  destruct (falsy (trim (repoUrl s))); [exact H|].
  destruct (negb (includes (lit "github.com") (trim (repoUrl s)))); [exact H|].
  destruct (encodeURIComponent (trim (repoUrl s))); cbn;
    intros [Hp|Hp]; discriminate.
Qed.

Lemma act_quiet (a : Action) (s : State) : quiet s -> quiet (act a s).
Proof.
  intros H. destruct a; cbn [act].
  - destruct (phase s) eqn:P; exact H.
  - destruct (phase s) eqn:P; exact H.
  - destruct (phase s); [apply startAnalysis_quiet, H | exact H..].
  - destruct (phase s) eqn:P; try exact H. unfold quiet in *. cbn.
    intros _. apply H. right. exact P.
  - apply deliver_quiet, H.
Qed.

Lemma uiRun_quiet (acts : list Action) (s : State) :
  quiet s -> quiet (uiRun acts s).
Proof.
  revert s. induction acts as [|a acts IH]; intros s H; [exact H|].
  cbn [uiRun fold_left]. apply IH, act_quiet, H.
Qed.

(** X10: the page never has two streams.  Starting from the freshly
    mounted page, after anything the user and the stream do, no stream
    is open while the form (phase idle) or the results (phase complete)
    are shown; so whenever submitting the form opens a connection, none
    was open before. *)
Theorem never_two_streams :
  forall (url : jsstring) (b : Q) (acts : list Action),
    (phase (uiRun acts (initial url b)) = idle \/
     phase (uiRun acts (initial url b)) = complete ->
     esOpen (uiRun acts (initial url b)) = false) /\
    (network (act submit (uiRun acts (initial url b)))
     <> network (uiRun acts (initial url b)) ->
     esOpen (uiRun acts (initial url b)) = false /\
     esOpen (act submit (uiRun acts (initial url b))) = true).
Proof.
  intros url b acts.
  assert (Hq : quiet (uiRun acts (initial url b))).
  { apply uiRun_quiet. intros _. reflexivity. }
  split; [exact Hq|].
  generalize dependent (uiRun acts (initial url b)). intros s Hq Hn.
  cbn [act] in *. unfold quiet in Hq.
  destruct (phase s) eqn:P; try congruence.
  split; [apply Hq; left; reflexivity|].
  unfold startAnalysis in *.
  destruct (falsy (trim (repoUrl s))); [cbn in Hn; congruence|].
  destruct (negb (includes (lit "github.com") (trim (repoUrl s))));
    [cbn in Hn; congruence|].
  destruct (encodeURIComponent (trim (repoUrl s)));
    [reflexivity | cbn in Hn; congruence].
Qed.

Lemma never_two_streams_witness :
  let acts := [typeUrl (lit "github.com/a/b"); submit;
               receive (message (repo_fetched sampleMeta));
               receive (message (refund (1 # 10) (lit "0.0.2@7")));
               submit; analyzeAnother] in
  network (act submit (uiRun acts (initial [] (3 # 2))))
  <> network (uiRun acts (initial [] (3 # 2))) /\
  esOpen (uiRun acts (initial [] (3 # 2))) = false /\
  length (network (act submit (uiRun acts (initial [] (3 # 2))))) = 2.
Proof.
  cbv zeta.
  assert (H : network
                (act submit
                   (uiRun [typeUrl (lit "github.com/a/b"); submit;
                           receive (message (repo_fetched sampleMeta));
                           receive (message (refund (1 # 10) (lit "0.0.2@7")));
                           submit; analyzeAnother] (initial [] (3 # 2))))
              <> network
                   (uiRun [typeUrl (lit "github.com/a/b"); submit;
                           receive (message (repo_fetched sampleMeta));
                           receive (message (refund (1 # 10) (lit "0.0.2@7")));
                           submit; analyzeAnother] (initial [] (3 # 2))))
    by (vm_compute; discriminate).
  split; [exact H|]. split; [|vm_compute; reflexivity].
  apply (never_two_streams [] (3 # 2)
           [typeUrl (lit "github.com/a/b"); submit;
            receive (message (repo_fetched sampleMeta));
            receive (message (refund (1 # 10) (lit "0.0.2@7")));
            submit; analyzeAnother]).
  exact H.
Defined.

(** X11: a session starts fresh.  For a reference that passes the
    checks, the state [startAnalysis] produces depends only on the form
    (reference and budget) and on the connection log: nothing of an
    earlier session (agents, refund, results, share link, error) leaks
    into the new one; in particular pressing ANALYZE ANOTHER REPO first
    makes no difference. *)
Theorem new_session_forgets_the_old_one :
  forall s s' : State,
    repoUrl s = repoUrl s' ->
    budget s = budget s' ->
    esOpen s = esOpen s' ->
    network s = network s' ->
    falsy (trim (repoUrl s)) = false ->
    includes (lit "github.com") (trim (repoUrl s)) = true ->
    startAnalysis s = startAnalysis s' /\
    startAnalysis (reset s) = startAnalysis s.
Proof.
  intros s s' Hu Hb Ho Hn Hf Hi. split.
  - unfold startAnalysis. rewrite <- Hu, Hf, Hi. cbn [negb].
    unfold freshSession. rewrite <- Hu, <- Hb, <- Ho, <- Hn.
    destruct (encodeURIComponent (trim (repoUrl s))); reflexivity.
  - unfold startAnalysis. cbn [reset repoUrl]. rewrite Hf, Hi. reflexivity.
Qed.

Lemma new_session_forgets_the_old_one_witness :
  let old := run [message (repo_fetched sampleMeta); started codeReader;
                  message (refund (1 # 10) (lit "0.0.2@7"))] sampleSession in
  falsy (trim (repoUrl old)) = false /\
  includes (lit "github.com") (trim (repoUrl old)) = true /\
  startAnalysis (reset old) = startAnalysis old.
Proof.
  cbv zeta. split; [reflexivity|]. split; [reflexivity|].
  apply (new_session_forgets_the_old_one
           (run [message (repo_fetched sampleMeta); started codeReader;
                 message (refund (1 # 10) (lit "0.0.2@7"))] sampleSession)
           (run [message (repo_fetched sampleMeta); started codeReader;
                 message (refund (1 # 10) (lit "0.0.2@7"))] sampleSession));
    reflexivity.
Defined.

(** *** The roster cards *)

Lemma find_snoc_other {A : Type} (f : A -> bool) (l : list A) (a : A) :
  f a = false \/ existsb f l = true ->
  find f (l ++ [a]) = find f l.
Proof.
  intros H. rewrite find_app. destruct (find f l) as [x|] eqn:E; [reflexivity|].
  cbn [find]. destruct H as [H|H]; [rewrite H; reflexivity|].
  apply existsb_exists in H. destruct H as [x [Hin Hx]].
  pose proof (find_none _ _ E x Hin). congruence.
Qed.

(** X12: the page always shows the four roster cards, in roster order,
    and a worker-started frame for an agent outside the roster, or for
    an agent that already has an entry, changes none of them. *)
Theorem unknown_or_repeated_start_is_not_shown :
  forall (s : State) (agent : jsstring) (pay alloc : Q),
    existsb (JS.eqb agent) rosterNames = false \/
    existsb (fun a => JS.eqb (name a) agent) (agents s) = true ->
    cards (agents (deliver (message (agent_start agent pay alloc)) s))
    = cards (agents s) /\
    map cardTitle (cards (agents s))
    = [lit "Code Reader"; lit "Simplifier"; lit "Analogy"; lit "Insight"].
Proof.
  intros s agent pay alloc H. split; [|reflexivity].
  unfold deliver. destruct (esOpen s); [|reflexivity].
  cbn [onmessage setAgents agents]. unfold cards.
  apply map_ext_in. intros def Hdef. unfold card.
  rewrite find_snoc_other; [reflexivity|].
  destruct H as [H|H].
  - left. cbn [name]. apply eqb_neq. intros E.
    assert (Hin : existsb (JS.eqb agent) rosterNames = true).
    { apply existsb_exists. exists (def_name def). split.
      - unfold rosterNames. apply in_map, Hdef.
      - apply eqb_eq. exact E. }
    congruence.
  - cbn [name]. destruct (JS.eqb agent (def_name def)) eqn:E; [|left; reflexivity].
    right. apply eqb_eq in E. subst agent. exact H.
Qed.

Lemma unknown_or_repeated_start_is_not_shown_witness :
  let s := run [message (repo_fetched sampleMeta); started codeReader]
               sampleSession in
  existsb (fun a => JS.eqb (name a) codeReader) (agents s) = true /\
  cards (agents (deliver (started codeReader) s)) = cards (agents s) /\
  length (agents (deliver (started codeReader) s)) = 2.
Proof.
  cbv zeta. split; [reflexivity|]. split; [|reflexivity].
  apply (unknown_or_repeated_start_is_not_shown
           (run [message (repo_fetched sampleMeta); started codeReader]
                sampleSession) codeReader (1 # 10) 25).
  right. reflexivity.
Defined.

(** *** The results *)

Lemma objGet_objSet_same (k v : jsstring) (o : AnalysisData) :
  objGet k (objSet k v o) = Some v.
Proof.
  unfold objGet. induction o as [|[k' v'] o IH]; cbn.
  - rewrite eqb_refl. reflexivity.
  - destruct (JS.eqb k' k) eqn:E; cbn.
    + rewrite eqb_refl. reflexivity.
    + rewrite E. exact IH.
Qed.

Lemma objGet_objSet_other (k k' v : jsstring) (o : AnalysisData) :
  k' <> k -> objGet k' (objSet k v o) = objGet k' o.
Proof.
  intros Hne. unfold objGet. induction o as [|[k0 v0] o IH]; cbn.
  - replace (JS.eqb k k') with false; [reflexivity|].
    symmetry. apply eqb_neq. congruence.
  - destruct (JS.eqb k0 k) eqn:E; cbn.
    + apply eqb_eq in E. subst k0.
      replace (JS.eqb k k') with false; [reflexivity|].
      symmetry. apply eqb_neq. congruence.
    + destruct (JS.eqb k0 k'); [reflexivity | exact IH].
Qed.

Lemma objSet_keys (k v : jsstring) (o : AnalysisData) :
  In k (map fst o) /\ map fst (objSet k v o) = map fst o \/
  ~ In k (map fst o) /\ map fst (objSet k v o) = map fst o ++ [k].
Proof.
  induction o as [|[k' v'] o IH]; cbn.
  - right. split; [tauto | reflexivity].
  - destruct (JS.eqb k' k) eqn:E.
    + apply eqb_eq in E. subst k'. left. cbn. split; [left|]; reflexivity.
    + apply eqb_neq in E. cbn.
      destruct IH as [[Hin Hk]|[Hin Hk]]; rewrite Hk.
      * left. split; [right; exact Hin | reflexivity].
      * right. split; [|reflexivity]. intros [H|H]; [congruence | tauto].
Qed.

(** X14: a completion stores its result under its key: reading that
    key afterwards gives the result, every other key reads as before,
    and no key ever appears twice. *)
Theorem completion_stores_its_result :
  forall (s : State) (agent tx : jsstring) (pay rem : Q) (k result : jsstring),
    esOpen s = true ->
    NoDup (map fst (data s)) ->
    let s' := deliver (message (agent_complete agent tx pay rem k result)) s in
    objGet k (data s') = Some result /\
    (forall k', k' <> k -> objGet k' (data s') = objGet k' (data s)) /\
    NoDup (map fst (data s')).
Proof.
  intros s agent tx pay rem k result Ho Hnd. cbv zeta.
  unfold deliver. rewrite Ho.
  cbn [onmessage setData setRemainingBudget setAgents data].
  split; [apply objGet_objSet_same|].
  split; [intros k' Hne; apply objGet_objSet_other, Hne|].
  destruct (objSet_keys k result (data s)) as [[_ E]|[Hin E]]; rewrite E.
  - exact Hnd.
  - apply NoDup_app; [exact Hnd | constructor; [intros [] | constructor] |].
    intros x Hx [<-|[]]. exact (Hin Hx).
Qed.

Lemma completion_stores_its_result_witness :
  esOpen sampleSession = true /\
  NoDup (map fst (data sampleSession)) /\
  objGet (lit "codeReader")
    (data (deliver (message (agent_complete codeReader (lit "0.0.1@1")
                               (1 # 10) 1 (lit "codeReader") (lit "{}")))
             sampleSession))
  = Some (lit "{}").
Proof.
  split; [reflexivity|]. split; [constructor|].
  apply (completion_stores_its_result sampleSession codeReader (lit "0.0.1@1")
           (1 # 10) 1 (lit "codeReader") (lit "{}")).
  - reflexivity.
  - constructor.
Defined.

(** *** Entries over a whole stream *)

Lemma deliver_entry (sg : Signal) (s : State) (i : nat) (a : AgentStatus) :
  nth_error (agents s) i = Some a ->
  exists a',
    nth_error (agents (deliver sg s)) i = Some a' /\
    name a' = name a /\ key a' = key a /\ allocation a' = allocation a /\
    (status a <> Status.working ->
     payment a' = payment a /\ txId a' = txId a /\
     status a' <> Status.working) /\
    (status a = Status.error -> a' = a).
Proof.
  intros H.
  assert (Hsame : exists a',
             nth_error (agents s) i = Some a' /\
             name a' = name a /\ key a' = key a /\
             allocation a' = allocation a /\
             (status a <> Status.working ->
              payment a' = payment a /\ txId a' = txId a /\
              status a' <> Status.working) /\
             (status a = Status.error -> a' = a))
    by (exists a; auto 10).
  unfold deliver. destruct (esOpen s); [|exact Hsame].
  destruct sg as [ev|]; [|exact Hsame].
  destruct ev; cbn [onmessage]; try exact Hsame.
  - (* agent_start *)
    exists a. cbn. split; [|auto 10].
    rewrite nth_error_app1; [exact H|].
    apply nth_error_Some. congruence.
  - (* agent_complete *)
    exists (completeEntry agent txId0 payment0 a). cbn.
    rewrite nth_error_map, H. split; [reflexivity|].
    unfold completeEntry.
    destruct (JS.eqb (name a) agent); cbn [andb]; [|auto 10].
    destruct (status a) eqn:Es; cbn; rewrite ?Es; repeat split;
      try reflexivity; try congruence; intros; congruence.
  - (* agent_error *)
    exists (failEntry agent a). cbn.
    rewrite nth_error_map, H. split; [reflexivity|].
    unfold failEntry. destruct (JS.eqb (name a) agent); [|auto 10].
    cbn. repeat split; try discriminate.
    intros Es. destruct a; cbn in *. subst. reflexivity.
Qed.

Lemma run_entry (sgs : list Signal) (s : State) (i : nat) (a : AgentStatus) :
  nth_error (agents s) i = Some a ->
  exists a',
    nth_error (agents (run sgs s)) i = Some a' /\
    name a' = name a /\ key a' = key a /\ allocation a' = allocation a /\
    (status a <> Status.working ->
     payment a' = payment a /\ txId a' = txId a /\
     status a' <> Status.working) /\
    (status a = Status.error -> a' = a).
Proof.
  revert s a. induction sgs as [|sg sgs IH]; intros s a H.
  - exists a. auto 10.
  - rewrite run_cons.
    destruct (deliver_entry sg s i a H) as (a1 & H1 & N1 & K1 & A1 & F1 & E1).
    destruct (IH _ _ H1) as (a2 & H2 & N2 & K2 & A2 & F2 & E2).
    exists a2. split; [exact H2|].
    split; [congruence|]. split; [congruence|]. split; [congruence|].
    split.
    + intros Hw. destruct (F1 Hw) as (P1 & T1 & W1).
      destruct (F2 W1) as (P2 & T2 & W2).
      repeat split; congruence.
    + intros He. rewrite (E1 He) in *. apply E2, He.
Qed.

(** X16: [agents] is append-only.  Over any stream, an entry stays at
    its index and keeps its name, key and allocation; entries are never
    removed or reordered. *)
Theorem entries_are_never_removed_or_renamed :
  forall (sgs : list Signal) (s : State) (i : nat) (a : AgentStatus),
    nth_error (agents s) i = Some a ->
    length (agents s) <= length (agents (run sgs s)) /\
    exists a',
      nth_error (agents (run sgs s)) i = Some a' /\
      name a' = name a /\ key a' = key a /\ allocation a' = allocation a.
Proof.
  intros sgs s i a H. split.
  - destruct (Nat.le_gt_cases (length (agents s)) (length (agents (run sgs s))))
      as [Hle|Hgt]; [exact Hle|exfalso].
    destruct (agents s) as [|b l] eqn:E; [cbn in Hgt; lia|].
    assert (Hlast : exists c, nth_error (agents s) (length l) = Some c).
    { rewrite E. destruct (nth_error (b :: l) (length l)) eqn:En;
        [eauto|]. apply nth_error_None in En. cbn in En. lia. }
    destruct Hlast as [c Hc].
    destruct (run_entry sgs s _ c Hc) as (c' & Hc' & _).
    assert (length l < length (agents (run sgs s)))
      by (apply nth_error_Some; congruence).
    cbn in Hgt. lia.
  - destruct (run_entry sgs s i a H) as (a' & H' & N & K & A & _).
    exists a'. auto.
Qed.

(** X17: an entry that is no longer working is settled.  Over any
    stream it never works again and keeps the payment and transaction
    it has; an entry in error stays exactly as it is. *)
Theorem finished_entries_keep_their_payment :
  forall (sgs : list Signal) (s : State) (i : nat) (a : AgentStatus),
    nth_error (agents s) i = Some a ->
    status a <> Status.working ->
    exists a',
      nth_error (agents (run sgs s)) i = Some a' /\
      payment a' = payment a /\ txId a' = txId a /\
      status a' <> Status.working /\
      (status a = Status.error -> a' = a).
Proof.
  intros sgs s i a H Hw.
  destruct (run_entry sgs s i a H) as (a' & H' & _ & _ & _ & F & E).
  destruct (F Hw) as (P & T & W). exists a'. auto 10.
Qed.

Lemma entries_are_never_removed_or_renamed_witness :
  let s := run [started codeReader] sampleSession in
  nth_error (agents s) 0
  = Some (mkAgent codeReader [] Status.working (1 # 10) [] 25) /\
  length (agents s)
  <= length (agents (run [completed codeReader 1; started simplifier] s)).
Proof.
  cbv zeta. split; [reflexivity|].
  apply (entries_are_never_removed_or_renamed
           [completed codeReader 1; started simplifier]
           (run [started codeReader] sampleSession) 0
           (mkAgent codeReader [] Status.working (1 # 10) [] 25)).
  reflexivity.
Defined.

Lemma finished_entries_keep_their_payment_witness :
  let s := run [started codeReader; completed codeReader 1] sampleSession in
  nth_error (agents s) 0
  = Some (mkAgent codeReader [] Status.complete (1 # 10) (lit "0.0.1@1") 25) /\
  Status.complete <> Status.working /\
  exists a',
    nth_error
      (agents (run [message (agent_complete codeReader (lit "0.0.9@9") 5 0 [] []);
                    message (agent_error codeReader)] s)) 0 = Some a' /\
    payment a' = (1 # 10)%Q /\ txId a' = lit "0.0.1@1".
Proof.
  cbv zeta. split; [reflexivity|]. split; [discriminate|].
  destruct (finished_entries_keep_their_payment
              [message (agent_complete codeReader (lit "0.0.9@9") 5 0 [] []);
               message (agent_error codeReader)]
              (run [started codeReader; completed codeReader 1] sampleSession)
              0
              (mkAgent codeReader [] Status.complete (1 # 10) (lit "0.0.1@1") 25))
    as (a' & H & P & T & _); [reflexivity | discriminate |].
  exists a'. auto.
Defined.

(** *** The orchestrator label *)

Lemma workingCount_zero (l : list AgentStatus) :
  workingCount l = 0 <-> Forall (fun a => status a <> Status.working) l.
Proof.
  unfold workingCount. induction l as [|a l IH]; cbn [filter length].
  - split; [constructor | reflexivity].
  - destruct (Status.eqb (status a) Status.working) eqn:E; cbn [length].
    + apply status_eqb_eq in E. split; [discriminate|].
      intros H. inversion H; subst. congruence.
    + rewrite IH. split; intros H.
      * constructor; [|exact H]. intros Hs. rewrite Hs in E. discriminate.
      * inversion H; subst. assumption.
Qed.

(** X13: the orchestrator label reads INITIALIZING... exactly while
    [agents] is empty, and ALL AGENTS COMPLETE exactly when there is an
    entry and none is working, whether the entries completed or
    failed and whether or not every roster agent has started. *)
Theorem orchestrator_label_counts_only_working_entries :
  forall l : list AgentStatus,
    (orchestratorStatus l = lit "INITIALIZING..." <-> l = []) /\
    (orchestratorStatus l = lit "ALL AGENTS COMPLETE" <->
     l <> [] /\ Forall (fun a => status a <> Status.working) l).
Proof.
  intros l. unfold orchestratorStatus.
  destruct (workingCount l) as [|[|n]] eqn:W; cbn [Nat.ltb Nat.leb Nat.eqb].
  - apply workingCount_zero in W. destruct l as [|a l]; cbn [length Nat.leb].
    + split; split; try reflexivity; try discriminate.
      intros [H _]. congruence.
    + split.
      * split; [intros H; vm_compute in H; discriminate | discriminate].
      * split; [intros _; split; [discriminate | exact W] | reflexivity].
  - split; split; intros H.
    + vm_compute in H. discriminate.
    + subst l. discriminate.
    + vm_compute in H. discriminate.
    + destruct H as [_ H]. apply workingCount_zero in H. congruence.
  - split; split; intros H.
    + vm_compute in H. discriminate.
    + subst l. discriminate.
    + vm_compute in H. discriminate.
    + destruct H as [_ H]. apply workingCount_zero in H. congruence.
Qed.
End SessionMore.

(** ** The wallet button *)

Section Wallet.

Import WalletButton.

Lemma truncate_long (addr : jsstring) :
  12 < length addr ->
  truncate addr = firstn 5 addr ++ lit "..." ++ skipn (length addr - 4) addr.
Proof.
  intros H. unfold truncate.
  destruct (Nat.ltb_spec 12 (length addr)); [reflexivity | lia].
Qed.

Lemma truncate_short (addr : jsstring) :
  length addr <= 12 -> truncate addr = addr.
Proof.
  intros H. unfold truncate.
  destruct (Nat.ltb_spec 12 (length addr)); [lia | reflexivity].
Qed.

(** X18: a truncated address fits: it never has more than 12 code
    units, it begins with the same five and ends with the same four
    code units as the address, an address of at most 12 code units is
    shown as it is, and truncating twice is truncating once. *)
Theorem truncate_fits_and_keeps_both_ends :
  forall addr : jsstring,
    length (truncate addr) <= 12 /\
    firstn 5 (truncate addr) = firstn 5 addr /\
    skipn (length (truncate addr) - 4) (truncate addr)
    = skipn (length addr - 4) addr /\
    (length addr <= 12 <-> truncate addr = addr) /\
    truncate (truncate addr) = truncate addr.
Proof.
  intros addr.
  destruct (Nat.le_gt_cases (length addr) 12) as [Hl|Hl].
  - rewrite !(truncate_short addr Hl). tauto.
  - assert (H5 : length (firstn 5 addr) = 5) by (rewrite length_firstn; lia).
    assert (H4 : length (skipn (length addr - 4) addr) = 4)
      by (rewrite length_skipn; lia).
    assert (H8 : length (firstn 5 addr ++ lit "...") = 8)
      by (rewrite length_app, H5; reflexivity).
    assert (Hlen : length (truncate addr) = 12).
    { rewrite (truncate_long addr Hl), !length_app, H5, H4. reflexivity. }
    rewrite (truncate_short (truncate addr)) by lia.
    rewrite Hlen. split; [lia|]. rewrite (truncate_long addr Hl).
    split; [|split; [|split; [|reflexivity]]].
    + rewrite firstn_app, H5, Nat.sub_diag, firstn_firstn. cbn [firstn].
      rewrite app_nil_r. reflexivity.
    + rewrite app_assoc, skipn_app, H8.
      change (12 - 4 - 8) with 0. change (12 - 4) with 8.
      rewrite skipn_all2 by (rewrite H8; lia).
      reflexivity.
    + split; [lia|]. intros E. rewrite <- (truncate_long addr Hl) in E.
      rewrite E in Hlen. lia.
Qed.

(** *** Decimal digits *)

Lemma decimalFuel_length (d fuel : nat) (n : N) :
  d < fuel ->
  (10 ^ N.of_nat d <= n < 10 ^ N.of_nat (S d))%N ->
  length (decimalFuel fuel n) = S d.
Proof.
  revert fuel n. induction d as [|d IH]; intros fuel n Hf Hn.
  - destruct fuel as [|fuel]; [lia|]. cbn [decimalFuel].
    change (10 ^ N.of_nat 1)%N with 10%N in Hn.
    replace (n <? 10)%N with true by (symmetry; apply N.ltb_lt; lia).
    reflexivity.
  - destruct fuel as [|fuel]; [lia|]. cbn [decimalFuel].
    rewrite !Nat2N.inj_succ, !N.pow_succ_r' in Hn.
    assert (H1 : (1 <= 10 ^ N.of_nat d)%N).
    { pose proof (N.pow_nonzero 10 (N.of_nat d)). lia. }
    replace (n <? 10)%N with false by (symmetry; apply N.ltb_ge; lia).
    rewrite length_app, (IH fuel (n / 10)%N); [cbn; lia | lia |].
    rewrite Nat2N.inj_succ, N.pow_succ_r'. split.
    + apply N.div_le_lower_bound; lia.
    + apply N.Div0.div_lt_upper_bound; lia.
Qed.

Lemma account_length (k : N) :
  (k < 8000000)%N -> length (account k) = 11.
Proof.
  intros Hk. unfold account. rewrite length_app. unfold decimal.
  rewrite (decimalFuel_length 6); [reflexivity | |].
  - assert (19 <= N.log2 (k + 1000000))%N.
    { change 19%N with (N.log2 (2 ^ 19)). apply N.log2_le_mono.
      change (2 ^ 19)%N with 524288%N. lia. }
    lia.
  - change (10 ^ N.of_nat 6)%N with 1000000%N.
    change (10 ^ N.of_nat 7)%N with 10000000%N. lia.
Qed.

(** X19: every account id that [connect] can produce has 11 code
    units, so the trigger button shows it in full. *)
Theorem generated_account_is_shown_in_full :
  forall k : N,
    (k < 8000000)%N ->
    length (account k) = 11 /\ truncate (account k) = account k /\
    startsWith (lit "0.0.") (account k) = true.
Proof.
  intros k Hk. split; [apply account_length, Hk|]. split; [|reflexivity].
  apply truncate_short. rewrite (account_length k Hk). lia.
Qed.

Lemma generated_account_is_shown_in_full_witness :
  (1234567 < 8000000)%N /\
  truncate (account 1234567) = lit "0.0.2234567".
Proof.
  split; [reflexivity|].
  destruct (generated_account_is_shown_in_full 1234567 eq_refl) as (_ & H & _).
  rewrite H. vm_compute. reflexivity.
Defined.

Lemma digitsValue_snoc (l : jsstring) (c : codeunit) :
  digitsValue (l ++ [c]) = (10 * digitsValue l + (c - 48))%N.
Proof. unfold digitsValue. rewrite fold_left_app. reflexivity. Qed.

Lemma decimalFuel_value (fuel : nat) (n : N) :
  (n < 2 ^ N.of_nat fuel)%N ->
  digitsValue (decimalFuel fuel n) = n.
Proof.
  revert n. induction fuel as [|fuel IH]; intros n Hn.
  - cbn in Hn. assert (n = 0%N) by lia. subst. reflexivity.
  - cbn [decimalFuel]. destruct (N.ltb_spec n 10) as [H|H].
    + unfold digitsValue. cbn [fold_left]. lia.
    + rewrite digitsValue_snoc, IH.
      * pose proof (N.div_mod n 10 ltac:(lia)) as Hdm.
        replace (48 + n mod 10 - 48)%N with (n mod 10)%N
          by (generalize (n mod 10)%N; intros m; lia).
        symmetry. exact Hdm.
      * rewrite Nat2N.inj_succ, N.pow_succ_r' in Hn.
        apply N.Div0.div_lt_upper_bound.
        assert (2 ^ N.of_nat fuel <= 10 * 2 ^ N.of_nat fuel)%N by lia. lia.
Qed.

(** The digits printed for a number read back as that number. *)
Lemma decimal_value (n : N) : digitsValue (decimal n) = n.
Proof.
  unfold decimal. apply decimalFuel_value.
  destruct n as [|p]; [reflexivity|].
  rewrite Nat2N.inj_succ, N2Nat.id.
  apply N.log2_spec. reflexivity.
Qed.

(** *** The states of the button *)

Lemma act_consistent (a : Action) (w : Wallet) :
  drawn a -> consistent w -> consistent (act a w).
Proof.
  intros Hd [Hc Hu]. unfold consistent.
  destruct a; cbn [act].
  - cbn [connected address balance connecting]. split; assumption.
  - destruct (showModal w); cbn [connected address balance connecting];
      split; assumption.
  - destruct (showModal w && negb (connected w)) eqn:E; [|split; assumption].
    destruct (connecting w) eqn:C; [rewrite C; split; assumption|].
    destruct (existsb _ WALLETS); [|rewrite C; split; assumption].
    apply andb_true_iff in E. destruct E as [_ E].
    apply negb_true_iff in E.
    cbn [connected address balance connecting].
    split; [congruence | exact Hu].
  - destruct (connecting w) eqn:C; [|rewrite C; split; assumption].
    cbn [drawn] in Hd. cbn [connected address balance connecting].
    split; [intros _ | discriminate].
    split; [reflexivity|]. split; [|reflexivity].
    apply truncate_short. rewrite (account_length k Hd). lia.
  - destruct (showModal w && connected w); [|split; assumption].
    cbn [connected address balance connecting].
    split; [discriminate | auto].
Qed.

(** X20: whatever is clicked and whenever the delay ends, the button
    stays consistent: while a wallet is connected no connection is
    pending and the account id is one the trigger shows in full; while
    none is connected, address and balance are empty. *)
Theorem wallet_button_stays_consistent :
  forall acts : list Action,
    Forall drawn acts ->
    consistent (runWallet acts unconnected).
Proof.
  intros acts H. unfold runWallet.
  assert (H0 : consistent unconnected)
    by (split; cbn; [discriminate | auto]).
  revert H0. generalize unconnected as w.
  induction H as [|a acts Ha _ IH]; intros w Hw; [exact Hw|].
  cbn [fold_left]. apply IH, act_consistent; assumption.
Qed.

Lemma wallet_button_stays_consistent_witness :
  Forall drawn [clickTrigger; chooseWallet (lit "blade");
                chooseWallet (lit "kabila"); pressOutside;
                delayOver 4321 (lit "3.50")] /\
  connected (runWallet [clickTrigger; chooseWallet (lit "blade");
                        chooseWallet (lit "kabila"); pressOutside;
                        delayOver 4321 (lit "3.50")] unconnected) = true /\
  truncate (address (runWallet [clickTrigger; chooseWallet (lit "blade");
                                chooseWallet (lit "kabila"); pressOutside;
                                delayOver 4321 (lit "3.50")] unconnected))
  = lit "0.0.1004321".
Proof.
  assert (H : Forall drawn [clickTrigger; chooseWallet (lit "blade");
                            chooseWallet (lit "kabila"); pressOutside;
                            delayOver 4321 (lit "3.50")])
    by (repeat constructor).
  split; [exact H|]. split; [reflexivity|].
  destruct (wallet_button_stays_consistent _ H) as [Hc _].
  destruct (Hc eq_refl) as (_ & Ht & _). rewrite Ht. vm_compute. reflexivity.
Defined.
End Wallet.

(** ** The shared report page *)

Section Report.

Import ShareReport.

Variable R : Type.
Variable renders : R -> bool.



(** X22: a reload that succeeds does not clear an earlier error.  When
    the page holds an error message and the effect runs again for
    another identifier whose request succeeds, the new report is
    stored but the failure screen with the old message stays. *)
Theorem earlier_error_hides_a_later_report :
  forall (p : Page R) (i : jsstring) (fetch : jsstring -> Fetched R)
         (status : N) (d : option R),
    falsy i = false ->
    falsy (error p) = false ->
    ok status = true ->
    fetch (apiReport ++ i) = responded status (Fulfilled d) ->
    report (fst (load (Some i) fetch p)) = d /\
    screen renders (fst (load (Some i) fetch p)) = Failure (error p).
Proof.
  intros p i fetch status d Hi He Hok Hf. unfold load.
  rewrite Hi, Hf, Hok. cbn [fst report]. split; [reflexivity|].
  unfold screen. cbn [loading report error]. rewrite He.
  destruct d; reflexivity.
Qed.

End Report.


Lemma earlier_error_hides_a_later_report_witness :
  let p := fst (ShareReport.load (Some (lit "old"))
                  (fun _ => ShareReport.responded 404 (Rejected []))
                  (@ShareReport.fresh ShareReport.SamplePayload)) in
  falsy (ShareReport.error p) = false /\
  ShareReport.loading p = false /\
  ShareReport.screen ShareReport.sampleRenders
    (fst (ShareReport.load (Some (lit "new"))
            (fun _ => ShareReport.responded 200
                        (Fulfilled (Some ShareReport.sampleReport))) p))
  = ShareReport.Failure ShareReport.notFoundMessage.
Proof.
  cbv zeta. split; [reflexivity|]. split; [reflexivity|].
  apply (earlier_error_hides_a_later_report
           ShareReport.SamplePayload ShareReport.sampleRenders
           (fst (ShareReport.load (Some (lit "old"))
                   (fun _ => ShareReport.responded 404 (Rejected []))
                   (@ShareReport.fresh ShareReport.SamplePayload)))
           (lit "new")
           (fun _ => ShareReport.responded 200
                       (Fulfilled (Some ShareReport.sampleReport)))
           200%N (Some ShareReport.sampleReport)); reflexivity.
Defined.

(** ** Diagram blocks of a report *)

Section Blocks.

Import IndexPage.

Lemma startsWith_prefix (p s t : jsstring) :
  startsWith p s = true -> startsWith p (s ++ t) = true.
Proof.
  intros H. destruct (startsWith_split p s H) as [r ->].
  rewrite <- app_assoc. apply startsWith_app.
Qed.

Lemma includes_iff (p s : jsstring) :
  includes p s = true <-> exists x y, s = x ++ p ++ y.
Proof.
  split.
  - induction s as [|c s IH]; cbn [includes]; intros H.
    + rewrite orb_false_r in H. apply startsWith_split in H.
      destruct H as [t H]. exists [], t. exact H.
    + apply orb_true_iff in H. destruct H as [H|H].
      * apply startsWith_split in H. destruct H as [t H]. exists [], t. exact H.
      * destruct (IH H) as (x & y & ->). exists (c :: x), y. reflexivity.
  - intros (x & y & ->). induction x as [|c x IH].
    + cbn [app]. destruct (p ++ y) eqn:E; cbn [includes]; rewrite <- E;
        rewrite startsWith_app; reflexivity.
    + cbn [app includes]. rewrite IH. apply orb_true_r.
Qed.

Lemma includes_pieceOf (p t s : jsstring) :
  pieceOf t s -> includes p t = true -> includes p s = true.
Proof.
  intros (b & a & ->) H. apply includes_iff in H. destruct H as (x & y & ->).
  apply includes_iff. exists (b ++ x), (y ++ a).
  rewrite <- !app_assoc. reflexivity.
Qed.

Lemma splitAtFirst_some (pat s before after : jsstring) :
  splitAtFirst pat s = Some (before, after) ->
  s = before ++ pat ++ after /\
  (pat <> [] -> includes pat before = false).
Proof.
  revert before after. induction s as [|c s IH]; intros before after H.
  - cbn [splitAtFirst] in H. destruct (startsWith pat []) eqn:E; [|discriminate].
    injection H as <- <-. apply startsWith_split in E. destruct E as [t E].
    destruct pat; [|discriminate]. split; [reflexivity|]. congruence.
  - cbn [splitAtFirst] in H. destruct (startsWith pat (c :: s)) eqn:E.
    + injection H as <- <-. destruct (startsWith_split _ _ E) as [t Ht].
      rewrite Ht at 1 2. rewrite skipn_app, skipn_all, Nat.sub_diag.
      cbn [app skipn]. split; [reflexivity|].
      intros Hp. destruct pat; [congruence | reflexivity].
    + destruct (splitAtFirst pat s) as [[b a]|] eqn:S; [|discriminate].
      injection H as <- <-. destruct (IH b a eq_refl) as [Hs Hn].
      split; [cbn; rewrite Hs; reflexivity|].
      intros Hp. cbn [includes]. rewrite (Hn Hp), orb_false_r.
      destruct (startsWith pat (c :: b)) eqn:E'; [|reflexivity].
      rewrite Hs in E. change (c :: b ++ pat ++ a) with ((c :: b) ++ pat ++ a) in E.
      rewrite (startsWith_prefix _ _ _ E') in E. discriminate.
Qed.

Lemma splitAtFirst_none (pat s : jsstring) :
  splitAtFirst pat s = None <-> includes pat s = false.
Proof.
  induction s as [|c s IH]; cbn [splitAtFirst includes].
  - destruct (startsWith pat []); split; intros H; try discriminate; reflexivity.
  - destruct (startsWith pat (c :: s)); cbn [orb].
    + split; discriminate.
    + destruct (splitAtFirst pat s) as [[b a]|].
      * split; [discriminate|]. intros H. apply IH in H. discriminate.
      * split; [intros _; apply IH; reflexivity | reflexivity].
Qed.

Lemma startsWith_shorten (p x y : jsstring) :
  startsWith p (x ++ y) = true -> length p <= length x ->
  startsWith p x = true.
Proof.
  revert x. induction p as [|a p IH]; intros x H Hl; [reflexivity|].
  destruct x as [|b x]; [cbn in Hl; lia|].
  cbn [app startsWith] in *. apply andb_true_iff in H. destruct H as [H1 H2].
  rewrite H1. cbn [andb]. apply IH; [exact H2 | cbn in Hl; lia].
Qed.

(** The first occurrence is where the pattern is put, when it does not
    begin anywhere earlier. *)
Lemma splitAtFirst_here (pat before after : jsstring) :
  pat <> [] ->
  includes pat (before ++ removelast pat) = false ->
  splitAtFirst pat (before ++ pat ++ after) = Some (before, after).
Proof.
  intros Hp H. induction before as [|c b IH].
  - cbn [app]. destruct (pat ++ after) eqn:E; cbn [splitAtFirst]; rewrite <- E;
      rewrite startsWith_app, skipn_app, skipn_all, Nat.sub_diag;
      reflexivity.
  - cbn [app includes] in H. apply orb_false_iff in H. destruct H as [H1 H2].
    cbn [app splitAtFirst]. rewrite (IH H2).
    destruct (startsWith pat (c :: b ++ pat ++ after)) eqn:E; [|reflexivity].
    exfalso.
    rewrite (app_removelast_last 0%N Hp) in E at 2.
    rewrite <- app_assoc in E.
    change (c :: b ++ removelast pat ++ [last pat 0%N] ++ after)
      with ((c :: b) ++ removelast pat ++ [last pat 0%N] ++ after) in E.
    rewrite app_assoc in E. apply startsWith_shorten in E.
    + cbn [app] in E. congruence.
    + pose proof (f_equal (@length codeunit) (app_removelast_last 0%N Hp))
        as Hl.
      rewrite length_app in Hl. cbn [length] in Hl.
      rewrite length_app. cbn [length]. unfold codeunit in *. lia.
Qed.

Lemma extractFrom_fuel (f1 f2 : nat) (text : jsstring) :
  length text <= f1 -> length text <= f2 ->
  extractFrom f1 text = extractFrom f2 text.
Proof.
  revert f2 text. induction f1 as [|f1 IH]; intros f2 text H1 H2.
  - destruct text; [|cbn in H1; lia]. destruct f2; reflexivity.
  - destruct f2 as [|f2].
    + destruct text; [|cbn in H2; lia]. reflexivity.
    + cbn [extractFrom].
      destruct (splitAtFirst opener text) as [[b rest]|] eqn:S1; [|reflexivity].
      destruct (splitAtFirst fence rest) as [[body rest']|] eqn:S2;
        [|reflexivity].
      apply splitAtFirst_some in S1. destruct S1 as [E1 _].
      apply splitAtFirst_some in S2. destruct S2 as [E2 _].
      assert (length rest' < length text).
      { rewrite E1, E2, !length_app. cbn [length opener fence lit].
        cbn. lia. }
      f_equal. apply IH; lia.
Qed.

(** X23: every block [extractMermaid] returns is trimmed and contains
    no fence. *)
Theorem extracted_blocks_are_trimmed_and_fence_free :
  forall (text block : jsstring),
    In block (extractMermaid text) ->
    trim block = block /\ includes fence block = false.
Proof.
  intros text block. unfold extractMermaid.
  generalize (length text) as fuel. intros fuel. revert text.
  induction fuel as [|fuel IH]; intros text H; [contradiction|].
  cbn [extractFrom] in H.
  destruct (splitAtFirst opener text) as [[b rest]|]; [|contradiction].
  destruct (splitAtFirst fence rest) as [[body rest']|] eqn:S; [|contradiction].
  destruct H as [<-|H]; [|exact (IH _ H)].
  split; [apply trim_idem|].
  apply splitAtFirst_some in S. destruct S as [_ Hn].
  apply not_true_is_false. intros E.
  rewrite (includes_pieceOf fence _ _ (trim_pieceOf body) E) in Hn.
  specialize (Hn ltac:(discriminate)). discriminate.
Qed.

(** X24: the blocks are found where they are.  A report that has no
    opener before the first block (not even straddling its start), the
    block's opener, a body without a fence (not even straddling its
    end), a closing fence and the rest, yields the trimmed body and
    then whatever the rest yields; a report without any opener yields
    nothing. *)
Theorem extractMermaid_finds_each_block :
  forall pre body rest : jsstring,
    includes opener (pre ++ removelast opener) = false ->
    includes fence (body ++ removelast fence) = false ->
    extractMermaid (pre ++ opener ++ body ++ fence ++ rest)
    = trim body :: extractMermaid rest /\
    extractMermaid pre = [].
Proof.
  intros pre body rest Hpre Hbody. split.
  - unfold extractMermaid.
    remember (length (pre ++ opener ++ body ++ fence ++ rest)) as n eqn:En.
    destruct n as [|n].
    { rewrite !length_app in En. cbn in En. lia. }
    cbn [extractFrom].
    rewrite (splitAtFirst_here opener pre _ ltac:(discriminate) Hpre).
    rewrite (splitAtFirst_here fence body _ ltac:(discriminate) Hbody).
    f_equal. apply extractFrom_fuel; [|lia].
    assert (length rest < S n) by (rewrite En, !length_app; cbn; lia).
    lia.
  - unfold extractMermaid. destruct (length pre); [reflexivity|].
    cbn [extractFrom].
    assert (Hn : splitAtFirst opener pre = None).
    { apply splitAtFirst_none.
      destruct (includes opener pre) eqn:E; [|reflexivity].
      rewrite (includes_pieceOf opener pre (pre ++ removelast opener)
                 (pieceOf_prefix pre _) E) in Hpre. discriminate. }
    rewrite Hn. reflexivity.
Qed.

Lemma extractMermaid_finds_each_block_witness :
  includes opener (lit "Flow:" ++ nl ++ removelast opener) = false /\
  includes fence (lit "graph TD; A-->B" ++ nl ++ removelast fence) = false /\
  extractMermaid (lit "Flow:" ++ nl ++ opener ++ lit "graph TD; A-->B" ++ nl
                    ++ fence ++ lit " done")
  = [lit "graph TD; A-->B"].
Proof.
  split; [vm_compute; reflexivity|]. split; [vm_compute; reflexivity|].
  destruct (extractMermaid_finds_each_block (lit "Flow:" ++ nl)
              (lit "graph TD; A-->B" ++ nl) (lit " done")) as [H _].
  - vm_compute. reflexivity.
  - vm_compute. reflexivity.
  - rewrite <- !app_assoc in H. rewrite H. vm_compute. reflexivity.
Defined.

Lemma extracted_blocks_are_trimmed_and_fence_free_witness :
  In (lit "pie") (extractMermaid (opener ++ lit " pie " ++ fence)) /\
  trim (lit "pie") = lit "pie".
Proof.
  assert (H : In (lit "pie") (extractMermaid (opener ++ lit " pie " ++ fence)))
    by (vm_compute; left; reflexivity).
  split; [exact H|].
  apply (extracted_blocks_are_trimmed_and_fence_free
           (opener ++ lit " pie " ++ fence) (lit "pie") H).
Defined.

End Blocks.
